(** * Kernel-PCA anomaly detector ([Kpca.py]): embedding and properties

    The detector is a Python class [kPCA] working on numpy arrays.  The
    embedding follows the source method by method:

    - numbers of the arrays are an abstract type [F] with the operations
      numpy applies to them (interface [Numeric]); it is instantiated with
      the real numbers (exact arithmetic) and with IEEE binary64 floats;
    - a two-dimensional array is a shape together with its indexing
      function, a one-dimensional array is a list;
    - the attributes of [self] form the record [kPCA]; attributes that only
      [fit] creates are optional, and reading a missing one raises
      [AttributeError];
    - methods that read or write [self] or raise live in a state and
      exception monad [M];
    - [scipy.linalg.eigh], [np.quantile] and [np.random.permutation] are
      external: they are the fields of the interface [NumpyEnv].

    Two limits of the embedding.  The configuration parameters [sigma],
    [sample_pct] and [contamination] are rationals and the arithmetic on
    them ([gamma], [sample_pct * n_samples], [n_sub / n_samples + 1e-3]) is
    exact, where the source rounds every operation to binary64.  The array
    operations are total, where numpy raises [ValueError] on shapes that do
    not fit; they agree with numpy on the shapes that do. *)

From Stdlib Require Import String Bool PeanoNat ZArith QArith Qround Qreals.
From Stdlib Require Import Reals Lra Lia List Permutation.
From Stdlib Require PrimFloat Uint63 Lqa.
Import ListNotations.

Local Close Scope Q_scope.
Local Open Scope nat_scope.

Set Implicit Arguments.

(* ================================================================= *)
(** ** Python exceptions and results *)

Inductive pyerr : Type :=
| AttributeError (attr : string)
| TypeError
| ValueError
| ZeroDivisionError
| RecursionError
| LinAlgError
| IndexError.

Inductive result (A : Type) : Type :=
| Ok (a : A)
| Err (e : pyerr).

Arguments Ok {A} a.
Arguments Err {A} e.

Definition is_attribute_error (e : pyerr) : bool :=
  match e with AttributeError _ => true | _ => false end.

(* ================================================================= *)
(** ** Numbers *)

(** The arithmetic numpy performs on array entries.  [fof_Z] is the
    promotion of a Python [int], [fof_Q] the value of a Python [float]
    configuration parameter given as a decimal literal. *)
Class Numeric (F : Type) : Type := {
  f0 : F;
  f1 : F;
  fadd : F -> F -> F;
  fsub : F -> F -> F;
  fmul : F -> F -> F;
  fdiv : F -> F -> F;
  fopp : F -> F;
  fsqrt : F -> F;
  fof_Z : Z -> F;
  fof_Q : Q -> F;
  fltb : F -> F -> bool
}.

(** [np.exp] is kept apart: binary64 has no primitive exponential. *)
Class Exponential (F : Type) : Type := { fexp : F -> F }.

Definition Rltb (x y : R) : bool := if Rlt_dec x y then true else false.

#[global] Instance R_numeric : Numeric R := {
  f0 := 0%R;
  f1 := 1%R;
  fadd := Rplus;
  fsub := Rminus;
  fmul := Rmult;
  fdiv := Rdiv;
  fopp := Ropp;
  fsqrt := sqrt;
  fof_Z := IZR;
  fof_Q := Q2R;
  fltb := Rltb
}.

#[global] Instance R_exponential : Exponential R := { fexp := exp }.

Definition float_of_Z (z : Z) : PrimFloat.float :=
  if (z <? 0)%Z then PrimFloat.opp (PrimFloat.of_uint63 (Uint63.of_Z (- z)))
  else PrimFloat.of_uint63 (Uint63.of_Z z).

#[global] Instance float_numeric : Numeric PrimFloat.float := {
  f0 := PrimFloat.zero;
  f1 := PrimFloat.one;
  fadd := PrimFloat.add;
  fsub := PrimFloat.sub;
  fmul := PrimFloat.mul;
  fdiv := PrimFloat.div;
  fopp := PrimFloat.opp;
  fsqrt := PrimFloat.sqrt;
  fof_Z := float_of_Z;
  fof_Q := fun q => PrimFloat.div (float_of_Z (Qnum q)) (float_of_Z (Zpos (Qden q)));
  fltb := PrimFloat.ltb
}.

(* ================================================================= *)
(** ** numpy arrays *)

Section Arrays.

Context {F : Type} {NF : Numeric F}.

(** A 2-D [ndarray]: its [shape] and [A[i, j]]. *)
Record array2 : Type := mkArray2 {
  nrows : nat;
  ncols : nat;
  item : nat -> nat -> F
}.

(** The argument of the public methods: a 1-D or a 2-D array. *)
Inductive ndarray : Type :=
| A1 (v : list F)
| A2 (m : array2).

Definition ndim (X : ndarray) : nat :=
  match X with A1 _ => 1 | A2 _ => 2 end.

(** Array literal from its rows. *)
Definition of_rows (rows : list (list F)) : array2 :=
  {| nrows := length rows;
     ncols := length (hd [] rows);
     item := fun i j => nth j (nth i rows []) f0 |}.

(** [sum_{i < n} f i], accumulated from the left. *)
Fixpoint fsum (n : nat) (f : nat -> F) : F :=
  match n with
  | O => f0
  | S k => fadd (fsum k f) (f k)
  end.

(** [[f 0; ...; f (n-1)]] *)
Definition tabulate (n : nat) (f : nat -> F) : list F := map f (seq 0 n).

Definition vitem (v : list F) (i : nat) : F := nth i v f0.

(** [A.dot(B)] for 2-D arrays. *)
Definition np_dot (A B : array2) : array2 :=
  {| nrows := nrows A;
     ncols := ncols B;
     item := fun i j => fsum (ncols A) (fun l => fmul (item A i l) (item B l j)) |}.

(** [v.dot(A)] for a 1-D [v] and a 2-D [A]. *)
Definition np_dot12 (v : list F) (A : array2) : list F :=
  tabulate (ncols A) (fun k => fsum (length v) (fun i => fmul (vitem v i) (item A i k))).

(** [A.T] *)
Definition np_T (A : array2) : array2 :=
  {| nrows := ncols A; ncols := nrows A; item := fun i j => item A j i |}.

(** [np.diag(A)] of a 2-D array: its main diagonal. *)
Definition np_diag (A : array2) : list F :=
  tabulate (Nat.min (nrows A) (ncols A)) (fun i => item A i i).

(** [np.expand_dims(v, axis = 0)]: a row. *)
Definition expand_dims0 (v : list F) : array2 :=
  {| nrows := 1; ncols := length v; item := fun _ j => vitem v j |}.

(** [np.expand_dims(v, axis = 1)] and [v.reshape(-1, 1)]: a column. *)
Definition expand_dims1 (v : list F) : array2 :=
  {| nrows := length v; ncols := 1; item := fun i _ => vitem v i |}.

(** [np.ones((m, n))], [np.ones(n)], [np.zeros(n)], [np.zeros_like(A)] *)
Definition np_ones2 (m n : nat) : array2 :=
  {| nrows := m; ncols := n; item := fun _ _ => f1 |}.
Definition np_ones (n : nat) : list F := repeat f1 n.
Definition np_zeros (n : nat) : list F := repeat f0 n.
Definition np_zeros_like (A : array2) : array2 :=
  {| nrows := nrows A; ncols := ncols A; item := fun _ _ => f0 |}.

(** Broadcasting of two shapes along one axis: an axis of length 1 is
    stretched to the other length (numpy raises [ValueError] when the
    lengths differ and neither is 1; the model is used on compatible
    shapes). *)
Definition bdim (a b : nat) : nat := if a =? 1 then b else a.
Definition bidx (n i : nat) : nat := if n =? 1 then 0 else i.

(** Elementwise [A op B] with broadcasting. *)
Definition bcast (op : F -> F -> F) (A B : array2) : array2 :=
  {| nrows := bdim (nrows A) (nrows B);
     ncols := bdim (ncols A) (ncols B);
     item := fun i j =>
       op (item A (bidx (nrows A) i) (bidx (ncols A) j))
          (item B (bidx (nrows B) i) (bidx (ncols B) j)) |}.

(** Elementwise function, and array combined with a scalar. *)
Definition amap (g : F -> F) (A : array2) : array2 :=
  {| nrows := nrows A; ncols := ncols A; item := fun i j => g (item A i j) |}.

(** [A.sum(axis = 0)]: the sums of the columns. *)
Definition sum_axis0 (A : array2) : list F :=
  tabulate (ncols A) (fun j => fsum (nrows A) (fun i => item A i j)).

(** [v.sum()] *)
Definition vsum (v : list F) : F := fsum (length v) (vitem v).

(** Elementwise operation on two 1-D arrays of one length. *)
Definition vzip (op : F -> F -> F) (u v : list F) : list F :=
  tabulate (length u) (fun i => op (vitem u i) (vitem v i)).

(** [np.squeeze(A)] of a column [(m, 1)]. *)
Definition np_squeeze_col (A : array2) : list F :=
  tabulate (nrows A) (fun i => item A i 0).

(** [np.flipud(A)], [np.fliplr(A)] *)
Definition np_flipud (A : array2) : array2 :=
  {| nrows := nrows A; ncols := ncols A;
     item := fun i j => item A (nrows A - 1 - i) j |}.
Definition np_fliplr (A : array2) : array2 :=
  {| nrows := nrows A; ncols := ncols A;
     item := fun i j => item A i (ncols A - 1 - j) |}.

(** The number of items selected by the slice [[:stop]] of an axis of length
    [n]: a negative [stop] counts from the end. *)
Definition slice_stop (n : nat) (stop : Z) : nat :=
  if (stop <? 0)%Z then Z.to_nat (Z.of_nat n + stop) else Nat.min (Z.to_nat stop) n.

(** [A[:stop]] and [A[:, :stop]] *)
Definition take_rows (A : array2) (stop : Z) : array2 :=
  {| nrows := slice_stop (nrows A) stop; ncols := ncols A; item := item A |}.
Definition take_cols (A : array2) (stop : Z) : array2 :=
  {| nrows := nrows A; ncols := slice_stop (ncols A) stop; item := item A |}.

(** [A[lo:hi, :]] for [0 <= lo], [0 <= hi] *)
Definition slice_rows (A : array2) (lo hi : nat) : array2 :=
  {| nrows := Nat.min hi (nrows A) - Nat.min lo (nrows A);
     ncols := ncols A;
     item := fun i j => item A (lo + i) j |}.

(** [A[idx]] for a list of row indices. *)
Definition take_idx (A : array2) (idx : list nat) : array2 :=
  {| nrows := length idx; ncols := ncols A;
     item := fun i j => item A (nth i idx 0) j |}.

(** [A[i][j] = x] *)
Definition set_item (A : array2) (i j : nat) (x : F) : array2 :=
  {| nrows := nrows A; ncols := ncols A;
     item := fun i' j' => if (i' =? i) && (j' =? j) then x else item A i' j' |}.

(** [v[lo:hi] = vals] where [vals] has the length of the slice. *)
Definition assign_slice (v : list F) (lo hi : nat) (vals : list F) : list F :=
  firstn lo v ++ firstn (Nat.min hi (length v) - lo) vals ++ skipn (Nat.min hi (length v)) v.

(** [labels[mask] = x] with [mask] a boolean array. *)
Definition assign_mask (labels : list F) (mask : list bool) (x : F) : list F :=
  map (fun lm : F * bool => if snd lm then x else fst lm) (combine labels mask).

End Arrays.

Arguments array2 F : clear implicits.
Arguments ndarray F : clear implicits.

(* ================================================================= *)
(** ** External collaborators *)

(** [scipy.linalg.eigh] (eigenvalues in ascending order and the matrix whose
    columns are the eigenvectors), [np.quantile] with its default method and
    one draw of [np.random.permutation]. *)
Class NumpyEnv (F : Type) : Type := {
  eigh : array2 F -> result (list F * array2 F);
  np_quantile : list F -> Q -> result F;
  np_random_permutation : nat -> list nat
}.

(* ================================================================= *)
(** ** The detector object *)

(** The parameter [q]: an [int], or a string such as the default ['same']. *)
Inductive qparam : Type :=
| QInt (z : Z)
| QStr (s : string).

Section Detector.

Context {F : Type} {NF : Numeric F} {EF : Exponential F} {Env : NumpyEnv F}.

(** The attributes of [self].  [__init__] sets the first eight; the others
    exist only once [fit] (or [threshold]) has assigned them. *)
Record kPCA : Type := mkKPCA {
  sigma : Q;
  gamma : Q;
  order : Z;
  q : qparam;
  sample_pct : Q;
  batch_size : Z;
  contamination : Q;
  verbose : bool;
  d_features : option nat;
  n_sub : option Z;
  model_alphas : option (array2 F);
  model_X_S : option (array2 F);
  model_K_mat : option (array2 F);
  decision_scores_ : option (list F);
  threshold_ : option F;
  labels_ : option (list F)
}.

(** [self.attr = x] *)
Definition set_sample_pct (x : Q) (self : kPCA) : kPCA :=
  {| sigma := sigma self;
     gamma := gamma self;
     order := order self;
     q := q self;
     sample_pct := x;
     batch_size := batch_size self;
     contamination := contamination self;
     verbose := verbose self;
     d_features := d_features self;
     n_sub := n_sub self;
     model_alphas := model_alphas self;
     model_X_S := model_X_S self;
     model_K_mat := model_K_mat self;
     decision_scores_ := decision_scores_ self;
     threshold_ := threshold_ self;
     labels_ := labels_ self |}.
Definition set_d_features (x : nat) (self : kPCA) : kPCA :=
  {| sigma := sigma self;
     gamma := gamma self;
     order := order self;
     q := q self;
     sample_pct := sample_pct self;
     batch_size := batch_size self;
     contamination := contamination self;
     verbose := verbose self;
     d_features := Some x;
     n_sub := n_sub self;
     model_alphas := model_alphas self;
     model_X_S := model_X_S self;
     model_K_mat := model_K_mat self;
     decision_scores_ := decision_scores_ self;
     threshold_ := threshold_ self;
     labels_ := labels_ self |}.
Definition set_n_sub (x : Z) (self : kPCA) : kPCA :=
  {| sigma := sigma self;
     gamma := gamma self;
     order := order self;
     q := q self;
     sample_pct := sample_pct self;
     batch_size := batch_size self;
     contamination := contamination self;
     verbose := verbose self;
     d_features := d_features self;
     n_sub := Some x;
     model_alphas := model_alphas self;
     model_X_S := model_X_S self;
     model_K_mat := model_K_mat self;
     decision_scores_ := decision_scores_ self;
     threshold_ := threshold_ self;
     labels_ := labels_ self |}.
Definition set_model_alphas (x : array2 F) (self : kPCA) : kPCA :=
  {| sigma := sigma self;
     gamma := gamma self;
     order := order self;
     q := q self;
     sample_pct := sample_pct self;
     batch_size := batch_size self;
     contamination := contamination self;
     verbose := verbose self;
     d_features := d_features self;
     n_sub := n_sub self;
     model_alphas := Some x;
     model_X_S := model_X_S self;
     model_K_mat := model_K_mat self;
     decision_scores_ := decision_scores_ self;
     threshold_ := threshold_ self;
     labels_ := labels_ self |}.
Definition set_model_X_S (x : array2 F) (self : kPCA) : kPCA :=
  {| sigma := sigma self;
     gamma := gamma self;
     order := order self;
     q := q self;
     sample_pct := sample_pct self;
     batch_size := batch_size self;
     contamination := contamination self;
     verbose := verbose self;
     d_features := d_features self;
     n_sub := n_sub self;
     model_alphas := model_alphas self;
     model_X_S := Some x;
     model_K_mat := model_K_mat self;
     decision_scores_ := decision_scores_ self;
     threshold_ := threshold_ self;
     labels_ := labels_ self |}.
Definition set_model_K_mat (x : array2 F) (self : kPCA) : kPCA :=
  {| sigma := sigma self;
     gamma := gamma self;
     order := order self;
     q := q self;
     sample_pct := sample_pct self;
     batch_size := batch_size self;
     contamination := contamination self;
     verbose := verbose self;
     d_features := d_features self;
     n_sub := n_sub self;
     model_alphas := model_alphas self;
     model_X_S := model_X_S self;
     model_K_mat := Some x;
     decision_scores_ := decision_scores_ self;
     threshold_ := threshold_ self;
     labels_ := labels_ self |}.
Definition set_decision_scores_ (x : list F) (self : kPCA) : kPCA :=
  {| sigma := sigma self;
     gamma := gamma self;
     order := order self;
     q := q self;
     sample_pct := sample_pct self;
     batch_size := batch_size self;
     contamination := contamination self;
     verbose := verbose self;
     d_features := d_features self;
     n_sub := n_sub self;
     model_alphas := model_alphas self;
     model_X_S := model_X_S self;
     model_K_mat := model_K_mat self;
     decision_scores_ := Some x;
     threshold_ := threshold_ self;
     labels_ := labels_ self |}.
Definition set_threshold_ (x : F) (self : kPCA) : kPCA :=
  {| sigma := sigma self;
     gamma := gamma self;
     order := order self;
     q := q self;
     sample_pct := sample_pct self;
     batch_size := batch_size self;
     contamination := contamination self;
     verbose := verbose self;
     d_features := d_features self;
     n_sub := n_sub self;
     model_alphas := model_alphas self;
     model_X_S := model_X_S self;
     model_K_mat := model_K_mat self;
     decision_scores_ := decision_scores_ self;
     threshold_ := Some x;
     labels_ := labels_ self |}.
Definition set_labels_ (x : list F) (self : kPCA) : kPCA :=
  {| sigma := sigma self;
     gamma := gamma self;
     order := order self;
     q := q self;
     sample_pct := sample_pct self;
     batch_size := batch_size self;
     contamination := contamination self;
     verbose := verbose self;
     d_features := d_features self;
     n_sub := n_sub self;
     model_alphas := model_alphas self;
     model_X_S := model_X_S self;
     model_K_mat := model_K_mat self;
     decision_scores_ := decision_scores_ self;
     threshold_ := threshold_ self;
     labels_ := Some x |}.

(** [kPCA(order, q, sigma, sample_pct, shrinking, batch_size, contamination,
    verbose)]; the division by [sigma] raises when [sigma] is zero. *)
Definition __init__ (order : Z) (q : qparam) (sigma sample_pct : Q)
    (shrinking : bool) (batch_size : Z) (contamination : Q) (verbose : bool)
    : result kPCA :=
  if Qeq_bool sigma 0 then Err ZeroDivisionError
  else Ok {| sigma := sigma;
             gamma := (1 / 2 / sigma / sigma)%Q;
             order := order;
             q := q;
             sample_pct := sample_pct;
             batch_size := batch_size;
             contamination := contamination;
             verbose := verbose;
             d_features := None;
             n_sub := None;
             model_alphas := None;
             model_X_S := None;
             model_K_mat := None;
             decision_scores_ := None;
             threshold_ := None;
             labels_ := None |}.

(** A detector on which [fit] has not run: none of the fitted attributes
    exists. *)
Definition unfitted (self : kPCA) : Prop :=
  d_features self = None /\ n_sub self = None /\ model_alphas self = None /\
  model_X_S self = None /\ model_K_mat self = None /\
  decision_scores_ self = None /\ threshold_ self = None /\ labels_ self = None.

(* ----------------------------------------------------------------- *)
(** *** Methods run in a state and exception monad over [self] *)

Definition M (A : Type) : Type := kPCA -> result A * kPCA.

Definition ret {A} (a : A) : M A := fun self => (Ok a, self).

Definition raise {A} (e : pyerr) : M A := fun self => (Err e, self).

Definition bind {A B} (m : M A) (k : A -> M B) : M B :=
  fun self =>
    match m self with
    | (Ok a, self') => k a self'
    | (Err e, self') => (Err e, self')
    end.

Definition lift {A} (r : result A) : M A := fun self => (r, self).

Definition ask : M kPCA := fun self => (Ok self, self).

(** [self.name] for an attribute created by [fit]. *)
Definition getattr {A} (name : string) (field : kPCA -> option A) : M A :=
  fun self =>
    match field self with
    | Some a => (Ok a, self)
    | None => (Err (AttributeError name), self)
    end.

Definition modify (f : kPCA -> kPCA) : M unit := fun self => (Ok tt, f self).

End Detector.

Arguments kPCA F : clear implicits.
Arguments M F A : clear implicits.

Declare Scope py_scope.
Delimit Scope py_scope with py.
Notation "x <- m ;; k" := (bind m (fun x => k))
  (at level 61, m at next level, right associativity) : py_scope.
Notation "m ;;; k" := (bind m (fun _ => k))
  (at level 61, right associativity) : py_scope.

(* ================================================================= *)
(** ** The methods of [kPCA] *)

(** Python's [int(x)] for a float: truncation towards zero. *)
Definition py_int (x : Q) : Z := Z.quot (Qnum x) (Zpos (Qden x)).

Definition Qltb (x y : Q) : bool := negb (Qle_bool y x).

(** [range(0, stop, step)] *)
Fixpoint range_from (fuel start stop step : nat) : list nat :=
  match fuel with
  | O => []
  | S fuel' =>
      if start <? stop then start :: range_from fuel' (start + step) stop step
      else []
  end.

Definition py_range (stop : nat) (step : Z) : result (list nat) :=
  if (step =? 0)%Z then Err ValueError
  else if (step <? 0)%Z then Ok []
  else Ok (range_from stop 0 stop (Z.to_nat step)).

Section Methods.

Context {F : Type} {NF : Numeric F} {EF : Exponential F} {Env : NumpyEnv F}.

Local Open Scope py_scope.

(** [subsample_data(self, X, sample_pct = None)] *)
Definition subsample_data (self : kPCA F) (X : array2 F) (sample_pct : option Q)
    : result (array2 F) :=
  match sample_pct with
  | None => Err TypeError
  | Some sample_pct =>
      let n_sub := py_int (sample_pct * inject_Z (Z.of_nat (nrows X)))%Q in
      let sample_idx := np_random_permutation (Z.to_nat n_sub) in
      if forallb (fun i => i <? nrows X) sample_idx
      then Ok (take_idx X sample_idx)
      else Err IndexError
  end.

(** [gramMatrix(self, X, X_S)] *)
Definition gramMatrix (self : kPCA F) (X X_S : array2 F) : array2 F :=
  let a := np_dot (expand_dims1 (np_diag (np_dot X_S (np_T X_S))))
                  (np_ones2 1 (nrows X)) in
  let b := np_dot (np_ones2 (nrows X_S) 1)
                  (expand_dims0 (np_diag (np_dot X (np_T X)))) in
  let sqrd_dists :=
    bcast fsub (bcast fadd a b) (amap (fmul (fof_Z 2)) (np_dot X_S (np_T X))) in
  let params := fof_Q (gamma self) in
  let K := amap fexp (amap (fmul (fopp params)) sqrd_dists) in
  K.

(** [eigenDecomp_gramMatrix(self, K_centered)] *)
Definition eigenDecomp_gramMatrix (self : kPCA F) (K_centered : array2 F)
    : result (array2 F) :=
  let numev := q self in
  match eigh K_centered with
  | Err e => Err e
  | Ok (w, v) =>
      let w := expand_dims1 w in
      let w := np_flipud w in
      let v := np_fliplr v in
      match numev with
      | QStr _ => Err TypeError
      | QInt numev =>
          let alphas := take_cols v numev in
          let lambdas := take_rows w numev in
          let alphs :=
            bcast fmul alphas
              (expand_dims0
                 (np_squeeze_col (amap (fdiv (fof_Z 1)) (amap fsqrt lambdas)))) in
          Ok alphs
      end
  end.

(** The body of the loop of [calc_reconstructionErrors] for the block that
    starts at row [block_i]. *)
Definition errs_of_block (self : kPCA F) (X X_S alphs : array2 F)
    (Krow : list F) (Ksum : F) (sumalphs : list F) (bs block_i : nat) : list F :=
  let n_sub := fof_Z (Z.of_nat (nrows X_S)) in
  let numev := ncols alphs in
  let X_block := slice_rows X block_i (block_i + bs) in
  let n_block := nrows X_block in
  let k_L := gramMatrix self X_block X_S in
  let f_L :=
    bcast fsub
      (bcast fsub
         (np_dot (np_T k_L) alphs)
         (bcast fmul
            (bcast fmul (expand_dims0 sumalphs) (np_ones2 n_block numev))
            (expand_dims1
               (map (fun x => fsub (fdiv x n_sub) Ksum) (sum_axis0 k_L)))))
      (bcast fmul (np_ones2 n_block numev) (expand_dims0 (np_dot12 Krow alphs))) in
  let errs_block :=
    vzip fsub
      (map (fun x => fadd (fsub (fof_Z 1) (fdiv (fmul (fof_Z 2) x) n_sub)) Ksum)
           (sum_axis0 k_L))
      (np_diag (np_dot f_L (np_T f_L))) in
  errs_block.

(** [calc_reconstructionErrors(self, X, X_S, K_mat, alphs)]; the progress
    messages of [verbose] are left out. *)
Definition calc_reconstructionErrors (self : kPCA F) (X X_S K_mat alphs : array2 F)
    : result (list F) :=
  let n_samples := nrows X in
  let n_sub := fof_Z (Z.of_nat (nrows X_S)) in
  let Krow := map (fun x => fdiv x n_sub) (sum_axis0 K_mat) in
  let Ksum := fdiv (vsum Krow) n_sub in
  let sumalphs := np_dot12 (np_ones (nrows X_S)) alphs in
  let reconstruction_errs := np_zeros n_samples in
  match py_range n_samples (batch_size self) with
  | Err e => Err e
  | Ok blocks =>
      let bs := Z.to_nat (batch_size self) in
      Ok (fold_left
            (fun reconstruction_errs block_i =>
               assign_slice reconstruction_errs block_i (block_i + bs)
                 (errs_of_block self X X_S alphs Krow Ksum sumalphs bs block_i))
            blocks reconstruction_errs)
  end.

(** [threshold(self, scores, contamination)] *)
Definition threshold (scores : list F) (contamination : Q) : M F (list F) :=
  threshold_v <- lift (np_quantile scores (1 - contamination)%Q) ;;
  let labels := np_ones (length scores) in
  let labels := assign_mask labels (map (fun s => fltb s threshold_v) scores) f0 in
  modify (set_threshold_ threshold_v) ;;;
  ret labels.

(** Lines 284-291 of [fit]: the double centering of the gram matrix. *)
Definition fit_K_centered (K_mat : array2 F) (n_sub : nat) : array2 F :=
  let Krow := map (fun x => fdiv x (fof_Z (Z.of_nat n_sub))) (sum_axis0 K_mat) in
  let Ksum := fdiv (vsum Krow) (fof_Z (Z.of_nat n_sub)) in
  let K_centered := np_zeros_like K_mat in
  fold_left
    (fun K_centered i =>
       fold_left
         (fun K_centered j =>
            set_item K_centered i j
              (fadd (fsub (fsub (item K_mat i j) (vitem Krow i)) (vitem Krow j)) Ksum))
         (seq 0 (ncols K_mat)) K_centered)
    (seq 0 (nrows K_mat)) K_centered.

(** [fit(self, X)] *)
Definition fit (X : ndarray F) : M F unit :=
  match X with
  | A1 _ => raise ValueError
  | A2 X =>
      let n_samples := nrows X in
      modify (set_d_features (ncols X)) ;;;
      self <- ask ;;
      (if (py_int (sample_pct self * inject_Z (Z.of_nat (nrows X)))%Q
             <? Z.of_nat (ncols X))%Z
       then
         match q self with
         | QStr _ => raise TypeError
         | QInt qz =>
             let n_sub := Z.max qz (Z.of_nat (ncols X)) in
             modify (set_n_sub n_sub) ;;;
             if nrows X =? 0 then raise ZeroDivisionError
             else modify (set_sample_pct
                            (inject_Z n_sub / inject_Z (Z.of_nat (nrows X))
                             + 1 / 1000)%Q)
         end
       else ret tt) ;;;
      self <- ask ;;
      X_S <- (if Qltb (sample_pct self) 1
              then lift (subsample_data self X None)
              else ret X) ;;
      let n_sub := nrows X_S in
      let K_mat := gramMatrix self X_S X_S in
      let K_mat := amap (fun x => fdiv x (fof_Z 2)) (bcast fadd K_mat (np_T K_mat)) in
      let K_centered := fit_K_centered K_mat n_sub in
      alphs <- lift (eigenDecomp_gramMatrix self K_centered) ;;
      modify (set_model_alphas alphs) ;;;
      modify (set_model_X_S X_S) ;;;
      modify (set_model_K_mat K_mat) ;;;
      self <- ask ;;
      reconstruction_errs <- lift (calc_reconstructionErrors self X X_S K_mat alphs) ;;
      modify (set_decision_scores_ reconstruction_errs) ;;;
      scores <- getattr "decision_scores_" (@decision_scores_ F) ;;
      self <- ask ;;
      labels <- threshold scores (contamination self) ;;
      modify (set_labels_ labels) ;;;
      ret tt
  end.

(** [decision_function(self, X_test)] *)
Definition decision_function (X_test : ndarray F) : M F (list F) :=
  let X_test :=
    match X_test with
    | A1 v => expand_dims0 v
    | A2 m => m
    end in
  X_S <- getattr "model_X_S" (@model_X_S F) ;;
  K_mat <- getattr "model_K_mat" (@model_K_mat F) ;;
  alphs <- getattr "model_alphas" (@model_alphas F) ;;
  self <- ask ;;
  scores <- lift (calc_reconstructionErrors self X_test X_S K_mat alphs) ;;
  ret scores.

(** [predict(self, X_test, threshold = None)].  The method calls itself;
    [depth] is the number of Python frames left before the interpreter
    raises [RecursionError]. *)
Fixpoint predict (depth : nat) (X_test : ndarray F) (threshold : option F)
    : M F (list F) :=
  match depth with
  | O => raise RecursionError
  | S depth' =>
      let X_test :=
        match X_test with
        | A1 v => expand_dims0 v
        | A2 m => m
        end in
      threshold <- match threshold with
                   | None => getattr "threshold_" (@threshold_ F)
                   | Some t => ret t
                   end ;;
      scores <- predict depth' (A2 X_test) None ;;
      let labels := np_ones (length scores) in
      let labels := assign_mask labels (map (fun s => fltb s threshold) scores) f0 in
      ret labels
  end.

End Methods.

(* ================================================================= *)
(** ** Concrete inputs *)

(** An environment that is exact on the smallest inputs: the eigenpair of
    the 1 x 1 matrix [[k]] is [k] with eigenvector [1], the quantile of a
    one-element sample is its element, and the permutation drawn is the
    identity. *)
Definition Env_small {F : Type} {NF : Numeric F} : NumpyEnv F :=
  {| eigh := fun K =>
       if (nrows K =? 1) && (ncols K =? 1)
       then Ok ([item K 0 0], of_rows [[f1]])
       else Err LinAlgError;
     np_quantile := fun scores _ =>
       match scores with
       | [x] => Ok x
       | _ => Err ValueError
       end;
     np_random_permutation := fun n => seq 0 n |}.

(** An environment over the reals that is exact on two-point inputs.  A
    symmetric 2 x 2 matrix with equal diagonal entries [a] and off-diagonal
    entry [b <= 0] (the centred gram matrix of two points is one) has the
    eigenvalues [a + b <= a - b] with the unit eigenvectors [(1, 1) / sqrt 2]
    and [(1, -1) / sqrt 2]; the quantile of two values by linear
    interpolation is [min + q * (max - min)]. *)
Definition Env_pair : NumpyEnv R :=
  {| eigh := fun K =>
       if (nrows K =? 2) && (ncols K =? 2)
       then Ok ([(item K 0 0 + item K 0 1)%R; (item K 0 0 - item K 0 1)%R],
                of_rows [[(1 / sqrt 2)%R; (1 / sqrt 2)%R];
                         [(1 / sqrt 2)%R; (- (1 / sqrt 2))%R]])
       else Err LinAlgError;
     np_quantile := fun scores qv =>
       match scores with
       | [x; y] => Ok (Rmin x y + Q2R qv * (Rmax x y - Rmin x y))%R
       | _ => Err ValueError
       end;
     np_random_permutation := fun n => seq 0 n |}.

(** The attributes [kPCA(q = qv)] has after construction. *)
Definition new_kPCA {F : Type} (qv : qparam) : kPCA F :=
  {| sigma := 1; gamma := (1 / 2 / 1 / 1)%Q; order := 3; q := qv;
     sample_pct := 1; batch_size := 500; contamination := (1 # 10)%Q;
     verbose := false;
     d_features := None; n_sub := None; model_alphas := None;
     model_X_S := None; model_K_mat := None; decision_scores_ := None;
     threshold_ := None; labels_ := None |}.

(** The same detector configured with another [batch_size]. *)
Definition with_batch_size {F : Type} (bs : Z) (self : kPCA F) : kPCA F :=
  {| sigma := sigma self; gamma := gamma self; order := order self; q := q self;
     sample_pct := sample_pct self; batch_size := bs;
     contamination := contamination self; verbose := verbose self;
     d_features := d_features self; n_sub := n_sub self;
     model_alphas := model_alphas self; model_X_S := model_X_S self;
     model_K_mat := model_K_mat self; decision_scores_ := decision_scores_ self;
     threshold_ := threshold_ self; labels_ := labels_ self |}.

(** Entry [[i, j]] of [gramMatrix(X, X_S)] written out on the rows
    [s = X_S[i]] (of length [dS]) and [x = X[j]] (of length [dX]), with the
    operations in the order the array expressions perform them. *)
Definition gram_entry {F : Type} {NF : Numeric F} {EF : Exponential F}
    (gam : Q) (dX dS : nat) (x s : nat -> F) : F :=
  fexp
    (fmul (fopp (fof_Q gam))
       (fsub
          (fadd (fadd f0 (fmul (fsum dS (fun l => fmul (s l) (s l))) f1))
                (fadd f0 (fmul f1 (fsum dX (fun l => fmul (x l) (x l))))))
          (fmul (fof_Z 2) (fsum dS (fun l => fmul (s l) (x l)))))).

(** The reconstruction error of one query row [x] (of length [dX]), as one
    pass of the loop of [calc_reconstructionErrors] computes it for a row of
    its block. *)
Definition row_error {F : Type} {NF : Numeric F} {EF : Exponential F}
    (self : kPCA F) (X_S alphs : array2 F) (Krow : list F) (Ksum : F)
    (sumalphs : list F) (dX : nat) (x : nat -> F) : F :=
  let n_sub := fof_Z (Z.of_nat (nrows X_S)) in
  let k := fun i => gram_entry (gamma self) dX (ncols X_S) x (item X_S i) in
  let colsum := fsum (nrows X_S) k in
  let f := fun c =>
    fsub
      (fsub (fsum (nrows X_S) (fun l => fmul (k l) (item alphs l c)))
            (fmul (fmul (vitem sumalphs c) f1) (fsub (fdiv colsum n_sub) Ksum)))
      (fmul f1 (vitem (np_dot12 Krow alphs) c)) in
  fsub (fadd (fsub (fof_Z 1) (fdiv (fmul (fof_Z 2) colsum) n_sub)) Ksum)
       (fsum (ncols alphs) (fun c => fmul (f c) (f c))).

(** The kernel of the specification: [exp(- |a - b|^2 / (2 sigma^2))] for
    two points with [d] coordinates. *)
Definition rbf_kernel (sigma : R) (d : nat) (a b : nat -> R) : R :=
  exp (- (1 / (2 * sigma * sigma))
       * fsum d (fun l => (a l - b l) * (a l - b l)))%R.

(** The row means and the grand mean of an [n x n] matrix. *)
Definition row_mean (K : array2 R) (n : nat) (i : nat) : R :=
  (fsum n (fun j => item K i j) / IZR (Z.of_nat n))%R.

Definition grand_mean (K : array2 R) (n : nat) : R :=
  (fsum n (row_mean K n) / IZR (Z.of_nat n))%R.

(** The label the specification gives a score [s] at threshold [t]:
    1 when [s >= t], 0 otherwise. *)
Definition label_of (t s : R) : R := if Rle_dec t s then 1%R else 0%R.

(** The symmetrised gram matrix [fit] computes from its subsample (lines
    278-282): [K_mat = gramMatrix(X_S, X_S)], then [(K_mat + K_mat.T) / 2]. *)
Definition fit_K_mat {F : Type} {NF : Numeric F} {EF : Exponential F}
    (self : kPCA F) (X_S : array2 F) : array2 F :=
  amap (fun x => fdiv x (fof_Z 2))
       (bcast fadd (gramMatrix self X_S X_S) (np_T (gramMatrix self X_S X_S))).

(** The detector after lines 262-267 of [fit] on a matrix [X]:
    [d_features] is set, and when [int(sample_pct * n_samples)] is below it,
    [n_sub] and [sample_pct] are rewritten from the integer [q]. *)
Definition fit_adjusted {F : Type} (X : array2 F) (self self2 : kPCA F) : Prop :=
  ((py_int (sample_pct self * inject_Z (Z.of_nat (nrows X)))%Q <? Z.of_nat (ncols X))%Z
   = false /\
   self2 = set_d_features (ncols X) self) \/
  (exists qz : Z,
      (py_int (sample_pct self * inject_Z (Z.of_nat (nrows X)))%Q <? Z.of_nat (ncols X))%Z
      = true /\
      q self = QInt qz /\ nrows X <> 0 /\
      self2 = set_sample_pct
                (inject_Z (Z.max qz (Z.of_nat (ncols X)))
                 / inject_Z (Z.of_nat (nrows X)) + 1 / 1000)%Q
                (set_n_sub (Z.max qz (Z.of_nat (ncols X)))
                   (set_d_features (ncols X) self))).

(** The detector [fit] leaves when it returns: the model, the scores, the
    threshold and the labels stored on top of [self2]. *)
Definition fit_result {F : Type} {NF : Numeric F} {EF : Exponential F}
    (X : array2 F) (self2 : kPCA F) (alphs : array2 F) (errs : list F) (t : F)
    : kPCA F :=
  set_labels_ (map (fun s => if fltb s t then f0 else f1) errs)
    (set_threshold_ t
       (set_decision_scores_ errs
          (set_model_K_mat (fit_K_mat self2 X)
             (set_model_X_S X (set_model_alphas alphs self2))))).

(** Two detectors with the same configuration, [sample_pct] apart. *)
Definition same_config {F : Type} (self self' : kPCA F) : Prop :=
  sigma self' = sigma self /\ gamma self' = gamma self /\
  order self' = order self /\ q self' = q self /\
  batch_size self' = batch_size self /\
  contamination self' = contamination self /\ verbose self' = verbose self.

(** A matrix taken as a quadratic form: [sum_i sum_j u[i] K[i,j] u[j]]. *)
Definition quad_form (K : array2 R) (n : nat) (u : nat -> R) : R :=
  fsum n (fun i => (u i * fsum n (fun j => item K i j * u j))%R).

(* ================================================================= *)
(** ** Basic facts about lists and arrays *)

Section ArrayFacts.

Context {F : Type} {NF : Numeric F}.

Lemma tabulate_length (n : nat) (f : nat -> F) : length (tabulate n f) = n.
Proof. unfold tabulate. now rewrite length_map, length_seq. Qed.

Lemma vitem_tabulate (n : nat) (f : nat -> F) (i : nat) :
  i < n -> vitem (tabulate n f) i = f i.
Proof.
  intros Hi. unfold vitem, tabulate.
  rewrite (nth_indep _ f0 (f 0)) by now rewrite length_map, length_seq.
  rewrite (map_nth f (seq 0 n) 0 i). now rewrite seq_nth.
Qed.

Lemma tabulate_ext (n : nat) (f g : nat -> F) :
  (forall i, i < n -> f i = g i) -> tabulate n f = tabulate n g.
Proof.
  intros H. unfold tabulate. apply map_ext_in.
  intros i Hi. apply in_seq in Hi. apply H. lia.
Qed.

Lemma fsum_ext (n : nat) (f g : nat -> F) :
  (forall i, i < n -> f i = g i) -> fsum n f = fsum n g.
Proof.
  induction n as [|n IH]; intros H; simpl; [reflexivity|].
  rewrite IH by (intros; apply H; lia). now rewrite H by lia.
Qed.

Lemma bidx_lt (n i : nat) : i < n -> bidx n i = i.
Proof.
  unfold bidx. intros Hi. destruct (Nat.eqb_spec n 1); [lia | reflexivity].
Qed.

Lemma bidx_1 (i : nat) : bidx 1 i = 0.
Proof. reflexivity. Qed.

Lemma bdim_same (n : nat) : bdim n n = n.
Proof. unfold bdim. now destruct (n =? 1). Qed.

Lemma bdim_1_r (n : nat) : bdim n 1 = n.
Proof. unfold bdim. destruct (Nat.eqb_spec n 1); congruence. Qed.

Lemma bdim_1_l (n : nat) : bdim 1 n = n.
Proof. reflexivity. Qed.

Lemma vitem_map (g : F -> F) (v : list F) (i : nat) :
  i < length v -> vitem (map g v) i = g (vitem v i).
Proof.
  intros Hi. unfold vitem.
  rewrite (nth_indep _ f0 (g f0)) by now rewrite length_map.
  apply map_nth.
Qed.


Lemma assign_slice_spec (v vals : list F) (lo hi : nat) :
  lo <= length v -> lo <= hi ->
  length vals = Nat.min hi (length v) - lo ->
  length (assign_slice v lo hi vals) = length v /\
  forall i : nat,
    i < length v ->
    vitem (assign_slice v lo hi vals) i
    = if (lo <=? i) && (i <? Nat.min hi (length v))
      then vitem vals (i - lo) else vitem v i.
Proof.
  intros Hlo Hhi Hvals. unfold assign_slice.
  set (m := Nat.min hi (length v)) in *.
  assert (Hm : lo <= m <= length v) by (unfold m; lia).
  rewrite <- Hvals, firstn_all.
  assert (Hl1 : length (firstn lo v) = lo) by (rewrite length_firstn; lia).
  split.
  - rewrite !length_app, Hl1, length_skipn. lia.
  - intros i Hi. unfold vitem.
    destruct (Nat.leb_spec lo i) as [Hle|Hlt]; cbn [andb].
    + rewrite app_nth2 by lia. rewrite Hl1.
      destruct (Nat.ltb_spec i m) as [Him|Him].
      * rewrite app_nth1 by lia. reflexivity.
      * rewrite app_nth2 by lia. rewrite nth_skipn. f_equal. lia.
    + rewrite app_nth1 by lia. rewrite nth_firstn.
      destruct (Nat.ltb_spec i lo); [reflexivity | lia].
Qed.


Lemma list_eq_tabulate (l : list F) (n : nat) (f : nat -> F) :
  length l = n -> (forall i, i < n -> vitem l i = f i) -> l = tabulate n f.
Proof.
  intros Hl Hi. apply (nth_ext _ _ f0 f0).
  - now rewrite tabulate_length.
  - intros i Hlt. rewrite Hl in Hlt.
    fold (vitem l i). fold (vitem (tabulate n f) i).
    now rewrite Hi, vitem_tabulate.
Qed.


Lemma np_dot12_length (v : list F) (A : array2 F) : length (np_dot12 v A) = ncols A.
Proof. unfold np_dot12. apply tabulate_length. Qed.

End ArrayFacts.

(* ================================================================= *)
(** ** The monad: evaluation lemmas *)

Section MonadFacts.

Context {F : Type}.

Lemma bind_ok {A B} (m : M F A) (k : A -> M F B) (self self' : kPCA F) (a : A) :
  m self = (Ok a, self') -> bind m k self = k a self'.
Proof. unfold bind. now intros ->. Qed.

Lemma bind_err {A B} (m : M F A) (k : A -> M F B) (self self' : kPCA F) (e : pyerr) :
  m self = (Err e, self') -> bind m k self = (Err e, self').
Proof. unfold bind. now intros ->. Qed.

Lemma getattr_some {A} (name : string) (field : kPCA F -> option A)
    (self : kPCA F) (a : A) :
  field self = Some a -> getattr name field self = (Ok a, self).
Proof. unfold getattr. now intros ->. Qed.

Lemma getattr_none {A} (name : string) (field : kPCA F -> option A) (self : kPCA F) :
  field self = None -> getattr name field self = (Err (AttributeError name), self).
Proof. unfold getattr. now intros ->. Qed.

End MonadFacts.

(* ================================================================= *)
(** ** The facade: [decision_function] and [predict] *)

Section Facade.

Context {F : Type} {NF : Numeric F} {EF : Exponential F}.

(** [predict] leaves [self] as it is, whatever it does. *)
Lemma predict_state (depth : nat) :
  forall (X_test : ndarray F) (thr : option F) (self : kPCA F),
    snd (predict depth X_test thr self) = self.
Proof.
  induction depth as [|depth IH]; intros X_test thr self; [reflexivity|].
  cbn [predict]. unfold bind at 1.
  destruct thr as [t|].
  - cbn [ret]. unfold bind.
    match goal with |- context [predict depth ?X None self] =>
      specialize (IH X None self); destruct (predict depth X None self) as [[s|e] self'] end;
      simpl in *; congruence.
  - unfold getattr. destruct (threshold_ self) as [t|]; [|reflexivity].
    unfold bind.
    match goal with |- context [predict depth ?X None self] =>
      specialize (IH X None self); destruct (predict depth X None self) as [[s|e] self'] end;
      simpl in *; congruence.
Qed.

(** On a detector that has a [threshold_], every call of [predict] ends in
    [RecursionError], at every recursion limit. *)
Lemma predict_fitted_recursion (depth : nat) :
  forall (X_test : ndarray F) (thr : option F) (self : kPCA F) (t : F),
    threshold_ self = Some t ->
    fst (predict depth X_test thr self) = Err RecursionError.
Proof.
  induction depth as [|depth IH]; intros X_test thr self t Ht; [reflexivity|].
  cbn [predict]. unfold bind at 1.
  assert (Hthr : exists t', match thr with
                            | None => getattr "threshold_" (@threshold_ F)
                            | Some t0 => ret t0
                            end self = (Ok t', self)).
  { destruct thr as [t0|]; [now exists t0|].
    exists t. now apply getattr_some. }
  destruct Hthr as [t' ->].
  unfold bind.
  match goal with |- context [predict depth ?X None self] =>
    specialize (IH X None self t Ht);
    destruct (predict depth X None self) as [[s|e] self'] end;
    simpl in *; congruence.
Qed.

End Facade.

Section FacadeClaims.

Context {F : Type} {NF : Numeric F} {EF : Exponential F}.

(** C1 (code defect).  The claim asks [predict] to score through
    [decision_function] and to threshold those scores.  The source calls
    [self.predict(X_test)] instead: on every detector that has a
    [threshold_] (every fitted one), for every input, every [threshold]
    argument and every recursion limit [depth], [predict] ends in
    [RecursionError] and returns no label at all; the state is untouched. *)
Theorem C1_predict_calls_itself :
  forall (depth : nat) (X_test : ndarray F) (thr : option F) (t : F) (self : kPCA F),
    predict depth X_test thr (set_threshold_ t self)
    = (Err RecursionError, set_threshold_ t self).
Proof.
  intros depth X_test thr t self.
  rewrite (surjective_pairing (predict depth X_test thr (set_threshold_ t self))).
  rewrite predict_state.
  now rewrite (predict_fitted_recursion depth X_test thr (set_threshold_ t self) (t := t)).
Qed.

(** C5 (amended).  On a detector on which [fit] has not run, for every
    input, [decision_function] fails with the [AttributeError] of the missing
    attribute [model_X_S], and [predict] called without a [threshold] fails
    with the [AttributeError] of the missing attribute [threshold_], which it
    reads first: the source has no "not fitted" check. *)
Theorem C5_unfitted_attribute_error :
  forall (self : kPCA F) (X_test : ndarray F),
    unfitted self ->
    fst (decision_function X_test self) = Err (AttributeError "model_X_S") /\
    forall depth : nat,
      fst (predict (S depth) X_test None self) = Err (AttributeError "threshold_").
Proof.
  intros self X_test (_ & _ & _ & HXS & _ & _ & Hthr & _). split.
  - unfold decision_function.
    erewrite bind_err by (apply getattr_none; exact HXS). reflexivity.
  - intros depth. cbn [predict].
    erewrite bind_err by (apply getattr_none; exact Hthr). reflexivity.
Qed.

(** C10.  [decision_function] never writes to [self]: whatever the state
    (fitted or not) and whatever the input, the state after the call is the
    state before it, so [model_X_S], [model_K_mat], [model_alphas],
    [threshold_], [decision_scores_] and [labels_] are unchanged. *)
Theorem C10_decision_function_read_only :
  forall (X_test : ndarray F) (self : kPCA F),
    snd (decision_function X_test self) = self.
Proof.
  intros X_test self. unfold decision_function, bind, getattr, ask, lift, ret.
  destruct (model_X_S self); [|reflexivity].
  destruct (model_K_mat self); [|reflexivity].
  destruct (model_alphas self); [|reflexivity].
  now destruct (calc_reconstructionErrors _ _ _ _ _).
Qed.

End FacadeClaims.

(** The default construction [kPCA()] yields [new_kPCA] with [q = 'same']. *)
Lemma new_kPCA_init (F : Type) (qv : qparam) :
  __init__ 3 qv 1 1 true 500 (1 # 10)%Q false = Ok (@new_kPCA F qv).
Proof. reflexivity. Qed.

Lemma new_kPCA_unfitted (F : Type) (qv : qparam) : unfitted (@new_kPCA F qv).
Proof. repeat split. Qed.

Lemma C5_unfitted_attribute_error_witness :
  unfitted (@new_kPCA R (QStr "same")) /\
  fst (decision_function (A2 (of_rows [[0%R]])) (new_kPCA (QStr "same")))
  = Err (AttributeError "model_X_S").
Proof.
  split; [apply new_kPCA_unfitted|].
  apply (C5_unfitted_attribute_error (A2 (of_rows [[0%R]]))
           (new_kPCA_unfitted R (QStr "same"))).
Defined.

(** The failing input of C1 evaluated: after [fit] on the one-point sample
    [[0.]] with [q = 1], [decision_function] returns a score for the point
    and [predict] ends in [RecursionError]. *)
Lemma predict_after_fit_recursion :
  let self := snd (fit (Env := Env_small) (A2 (of_rows [[0%R]])) (new_kPCA (QInt 1))) in
  (exists scores : list R,
      fst (decision_function (A2 (of_rows [[0%R]])) self) = Ok scores /\
      length scores = 1) /\
  fst (predict 1000 (A2 (of_rows [[0%R]])) None self) = Err RecursionError.
Proof.
  intros self. split.
  - eexists. split; [vm_compute; reflexivity | reflexivity].
  - assert (H : exists t, threshold_ self = Some t) by (eexists; vm_compute; reflexivity).
    destruct H as [t Ht].
    exact (predict_fitted_recursion 1000 (A2 (of_rows [[0%R]])) None self Ht).
Qed.

(** C5 as stated fails: on the freshly built default detector,
    [decision_function] raises an attribute error. *)
Lemma C5_counterexample :
  exists e : pyerr,
    fst (decision_function (A2 (of_rows [[0%R]])) (new_kPCA (QStr "same"))) = Err e /\
    is_attribute_error e = true.
Proof. exists (AttributeError "model_X_S"). split; reflexivity. Qed.

(* ================================================================= *)
(** ** Eigendecomposition and rescaling *)

Section Eigen.

Context {F : Type} {NF : Numeric F} {EF : Exponential F} {Env : NumpyEnv F}.

(** With an integer [q] the method returns whenever [eigh] does: the
    retained columns are the last columns of [eigh]'s matrix in reverse
    order, each multiplied by [1 / sqrt] of its eigenvalue.  No test on the
    eigenvalues is made. *)
Lemma eigenDecomp_int (self : kPCA F) (K_centered : array2 F) (z : Z)
    (w : list F) (v : array2 F) :
  q self = QInt z ->
  eigh K_centered = Ok (w, v) ->
  length w = ncols v ->
  exists alphs : array2 F,
    eigenDecomp_gramMatrix self K_centered = Ok alphs /\
    nrows alphs = nrows v /\
    ncols alphs = slice_stop (ncols v) z /\
    forall i k : nat,
      i < nrows v -> k < slice_stop (ncols v) z ->
      item alphs i k
      = fmul (item v i (ncols v - 1 - k))
             (fdiv (fof_Z 1) (fsqrt (vitem w (length w - 1 - k)))).
Proof.
  intros Hq Heigh Hlen. unfold eigenDecomp_gramMatrix. rewrite Heigh, Hq.
  eexists. split; [reflexivity|]. unfold np_squeeze_col.
  cbn [nrows ncols item bcast take_cols take_rows
       np_fliplr np_flipud expand_dims0 expand_dims1 amap].
  rewrite tabulate_length, Hlen, bdim_1_r, bdim_same.
  repeat split.
  intros i k Hi Hk.
  rewrite (bidx_lt Hi), !(bidx_lt Hk).
  now rewrite vitem_tabulate by exact Hk.
Qed.

(** C3 (code defect).  With [q] a string, as the default ['same'] or the
    documented ['auto'], the column slice [v[:, :numev]] raises [TypeError]:
    on the detector built by the constructor, whenever [eigh] returns, the
    eigendecomposition step returns no [alphas] at all. *)
Theorem C3_string_q_raises :
  forall (order : Z) (s : string) (sigma sample_pct : Q) (shrinking : bool)
         (batch_size : Z) (contamination : Q) (verbose : bool)
         (self : kPCA F) (K_centered : array2 F) (w : list F) (v : array2 F),
    __init__ order (QStr s) sigma sample_pct shrinking batch_size contamination verbose
    = Ok self ->
    eigh K_centered = Ok (w, v) ->
    eigenDecomp_gramMatrix self K_centered = Err TypeError.
Proof.
  intros order s sigma sample_pct shrinking batch_size contamination verbose
         self K_centered w v Hinit Heigh.
  unfold __init__ in Hinit. destruct (Qeq_bool sigma 0); [discriminate|].
  injection Hinit as <-. unfold eigenDecomp_gramMatrix. now rewrite Heigh.
Qed.

End Eigen.

Lemma C3_string_q_raises_witness :
  __init__ 3 (QStr "same") 1 1 true 500 (1 # 10)%Q false = Ok (@new_kPCA R (QStr "same")) /\
  eigh (NumpyEnv := Env_small) (of_rows [[0%R]]) = Ok ([0%R], of_rows [[1%R]]) /\
  eigenDecomp_gramMatrix (Env := Env_small) (new_kPCA (QStr "same")) (of_rows [[0%R]])
  = Err TypeError.
Proof.
  split; [reflexivity|]. split; [reflexivity|].
  apply (@C3_string_q_raises R _ Env_small 3 "same" 1 1 true 500 (1 # 10)%Q false
           (new_kPCA (QStr "same")) (of_rows [[0%R]]) [0%R] (of_rows [[1%R]]));
    reflexivity.
Defined.

(** The failing input of C3 evaluated: [kPCA().fit([[0.]])], with the default
    [q = 'same'], ends in [TypeError]. *)
Lemma fit_default_q_raises :
  fst (fit (Env := Env_small) (A2 (of_rows [[0%R]])) (new_kPCA (QStr "same")))
  = Err TypeError.
Proof. vm_compute. reflexivity. Qed.

(* ================================================================= *)
(** ** Thresholding *)

Section Thresholding.

Context {F : Type} {NF : Numeric F} {EF : Exponential F} {Env : NumpyEnv F}.

Lemma assign_mask_ones (g : F -> bool) (scores : list F) :
  assign_mask (np_ones (length scores)) (map g scores) f0
  = map (fun s => if g s then f0 else f1) scores.
Proof.
  unfold assign_mask, np_ones.
  induction scores as [|s scores IH]; [reflexivity|].
  simpl. now rewrite IH.
Qed.

(** What [threshold] does, in one equation. *)
Lemma threshold_eq (scores : list F) (c : Q) (self : kPCA F) :
  threshold scores c self
  = match np_quantile scores (1 - c)%Q with
    | Ok t => (Ok (map (fun s => if fltb s t then f0 else f1) scores),
               set_threshold_ t self)
    | Err e => (Err e, self)
    end.
Proof.
  unfold threshold, bind, lift, modify, ret.
  destruct (np_quantile scores (1 - c)%Q) as [t|e]; [|reflexivity].
  now rewrite assign_mask_ones.
Qed.

(** The labels are zeros and ones, whatever the scores and the threshold. *)
Lemma threshold_labels_binary (scores labels : list F) (c : Q) (self self' : kPCA F) :
  threshold scores c self = (Ok labels, self') ->
  Forall (fun l => l = f0 \/ l = f1) labels.
Proof.
  rewrite threshold_eq. destruct (np_quantile scores (1 - c)%Q) as [t|e]; [|discriminate].
  intros [= <- _]. apply Forall_forall. intros l Hl.
  apply in_map_iff in Hl. destruct Hl as (s & <- & _).
  destruct (fltb s t); auto.
Qed.

(** C4 (amended).  For an integer [q], the eigendecomposition and rescaling
    step makes no test on the retained eigenvalues: whenever [eigh] returns
    its [n] eigenvalues and [n] eigenvectors, the step returns (it raises
    nothing) the retained eigenvectors taken from the largest eigenvalue
    down, column [k] multiplied by [1 / sqrt(lambda_k)] whatever the sign of
    [lambda_k].  The labels computed by [threshold] are always 0 or 1. *)
Theorem C4_rescaling_unchecked :
  forall (self : kPCA F) (K_centered : array2 F) (z : Z) (w : list F) (v : array2 F),
    q self = QInt z ->
    eigh K_centered = Ok (w, v) ->
    length w = ncols v ->
    (exists alphs : array2 F,
        eigenDecomp_gramMatrix self K_centered = Ok alphs /\
        nrows alphs = nrows v /\
        ncols alphs = slice_stop (ncols v) z /\
        forall i k : nat,
          i < nrows v -> k < slice_stop (ncols v) z ->
          item alphs i k
          = fmul (item v i (ncols v - 1 - k))
                 (fdiv (fof_Z 1) (fsqrt (vitem w (length w - 1 - k))))) /\
    (forall (scores labels : list F) (c : Q) (self0 self1 : kPCA F),
        threshold scores c self0 = (Ok labels, self1) ->
        Forall (fun l => l = f0 \/ l = f1) labels).
Proof.
  intros self K_centered z w v Hq Heigh Hlen. split.
  - exact (eigenDecomp_int self K_centered Hq Heigh Hlen).
  - intros scores labels c self0 self1. apply threshold_labels_binary.
Qed.

End Thresholding.

Lemma C4_rescaling_unchecked_witness :
  q (@new_kPCA R (QInt 1)) = QInt 1 /\
  eigh (NumpyEnv := Env_small) (of_rows [[0%R]]) = Ok ([0%R], of_rows [[1%R]]) /\
  length [0%R] = ncols (of_rows [[1%R]]) /\
  exists alphs : array2 R,
    eigenDecomp_gramMatrix (Env := Env_small) (new_kPCA (QInt 1)) (of_rows [[0%R]])
    = Ok alphs.
Proof.
  split; [reflexivity|]. split; [reflexivity|]. split; [reflexivity|].
  destruct (@C4_rescaling_unchecked R _ Env_small (new_kPCA (QInt 1))
              (of_rows [[0%R]]) 1%Z [0%R] (of_rows [[1%R]]))
    as [[alphs [H _]] _]; [reflexivity | reflexivity | reflexivity |].
  exists alphs. exact H.
Defined.

(** C4 as stated fails.  In binary64, take the centred gram matrix [[0.0]]
    of a one-point subsample and [q = 1]; [eigh] returns the eigenvalue
    [0.0] with eigenvector [1.0].  The retained eigenvalue is not positive,
    yet the step raises nothing: it returns [alphas] whose entry is [inf]. *)
Lemma C4_counterexample :
  exists alphs : array2 PrimFloat.float,
    eigh (NumpyEnv := Env_small) (of_rows [[PrimFloat.zero]])
    = Ok ([PrimFloat.zero], of_rows [[PrimFloat.one]]) /\
    eigenDecomp_gramMatrix (Env := Env_small) (new_kPCA (QInt 1))
      (of_rows [[PrimFloat.zero]]) = Ok alphs /\
    item alphs 0 0 = PrimFloat.infinity.
Proof.
  eexists. split; [reflexivity|]. split; [reflexivity|]. vm_compute. reflexivity.
Qed.

(* ================================================================= *)
(** ** [fit] *)

Lemma bind_inv {F A B} (m : M F A) (k : A -> M F B) (self self' : kPCA F) (b : B) :
  bind m k self = (Ok b, self') ->
  exists (a : A) (self1 : kPCA F), m self = (Ok a, self1) /\ k a self1 = (Ok b, self').
Proof.
  unfold bind. destruct (m self) as [[a|e] self1]; [|discriminate].
  intros H. now exists a, self1.
Qed.

Ltac bind_step H a s E :=
  apply bind_inv in H; destruct H as (a & s & E & H).

Section FitFacts.

Context {F : Type} {NF : Numeric F} {EF : Exponential F} {Env : NumpyEnv F}.

End FitFacts.

Lemma Rltb_label_of (t s : R) : (if Rltb s t then 0%R else 1%R) = label_of t s.
Proof.
  unfold Rltb, label_of. destruct (Rlt_dec s t), (Rle_dec t s); try reflexivity; lra.
Qed.

(* ================================================================= *)
(** ** Subsampling *)

Section Subsampling.

Context {F : Type} {NF : Numeric F} {Env : NumpyEnv F}.

(** C2 (code defect).  The claim wants the subsample drawn from all of [X].
    The source permutes [range(n_sub)] only: whatever permutation is drawn,
    the [n_sub = int(p * n_samples)] rows returned are rows of [X] with an
    index below [n_sub]; a row at index [n_sub] or later never appears. *)
Theorem C2_subsample_first_rows_only :
  forall (self : kPCA F) (X X_s : array2 F) (p : Q),
    (forall n : nat, Permutation (np_random_permutation n) (seq 0 n)) ->
    subsample_data self X (Some p) = Ok X_s ->
    nrows X_s = Z.to_nat (py_int (p * inject_Z (Z.of_nat (nrows X)))%Q) /\
    forall i : nat,
      i < nrows X_s ->
      exists r : nat,
        r < Z.to_nat (py_int (p * inject_Z (Z.of_nat (nrows X)))%Q) /\
        forall j : nat, item X_s i j = item X r j.
Proof.
  intros self X X_s p Hperm. unfold subsample_data.
  set (n_sub := Z.to_nat (py_int (p * inject_Z (Z.of_nat (nrows X)))%Q)).
  destruct (forallb _ _); [|discriminate].
  intros [= <-]. cbn [nrows item take_idx].
  pose proof (Permutation_length (Hperm n_sub)) as Hlen.
  rewrite length_seq in Hlen. split; [exact Hlen|].
  intros i Hi. exists (nth i (np_random_permutation n_sub) 0). split; [|reflexivity].
  assert (Hin : In (nth i (np_random_permutation n_sub) 0) (seq 0 n_sub)).
  { apply (Permutation_in _ (Hperm n_sub)). now apply nth_In. }
  apply in_seq in Hin. lia.
Qed.

End Subsampling.

Lemma C2_subsample_first_rows_only_witness :
  (forall n : nat, Permutation (np_random_permutation (NumpyEnv := @Env_small R _) n) (seq 0 n)) /\
  subsample_data (Env := Env_small) (new_kPCA (QInt 1))
    (of_rows [[1%R]; [2%R]]) (Some (1 # 2)%Q)
  = Ok (take_idx (of_rows [[1%R]; [2%R]]) [0]) /\
  forall i : nat,
    i < 1 ->
    exists r : nat,
      r < 1 /\
      forall j : nat,
        item (take_idx (of_rows [[1%R]; [2%R]]) [0]) i j
        = item (of_rows [[1%R]; [2%R]]) r j.
Proof.
  split; [intros n; apply Permutation_refl|]. split; [reflexivity|].
  apply (@C2_subsample_first_rows_only R Env_small (new_kPCA (QInt 1))
           (of_rows [[1%R]; [2%R]]) (take_idx (of_rows [[1%R]; [2%R]]) [0]) (1 # 2)%Q).
  - intros n. apply Permutation_refl.
  - reflexivity.
Defined.

(* ================================================================= *)
(** ** The kernel function and the reconstruction errors *)

Section GramAndErrors.

Context {F : Type} {NF : Numeric F} {EF : Exponential F}.

Lemma gramMatrix_shape (self : kPCA F) (X X_S : array2 F) :
  nrows (gramMatrix self X X_S) = nrows X_S /\
  ncols (gramMatrix self X X_S) = nrows X.
Proof.
  unfold gramMatrix, np_diag.
  cbn [nrows ncols bcast amap np_dot np_T expand_dims0 expand_dims1 np_ones2].
  rewrite !tabulate_length.
  cbn [nrows ncols np_dot np_T].
  rewrite !Nat.min_id, !bdim_same. split; reflexivity.
Qed.

Lemma gramMatrix_item (self : kPCA F) (X X_S : array2 F) (i j : nat) :
  i < nrows X_S -> j < nrows X ->
  item (gramMatrix self X X_S) i j
  = gram_entry (gamma self) (ncols X) (ncols X_S) (item X j) (item X_S i).
Proof.
  intros Hi Hj. unfold gramMatrix, np_diag.
  cbn [item nrows ncols bcast amap np_dot np_T expand_dims0 expand_dims1 np_ones2 fsum].
  rewrite !tabulate_length.
  cbn [item nrows ncols np_dot np_T].
  rewrite !Nat.min_id, !bdim_same, !(bidx_lt Hi), !(bidx_lt Hj).
  rewrite !vitem_tabulate by assumption. reflexivity.
Qed.

Lemma errs_of_block_spec (self : kPCA F) (X X_S alphs : array2 F)
    (Krow : list F) (Ksum : F) (sumalphs : list F) (bs lo : nat) :
  length sumalphs = ncols alphs ->
  let nb := Nat.min (lo + bs) (nrows X) - Nat.min lo (nrows X) in
  length (errs_of_block self X X_S alphs Krow Ksum sumalphs bs lo) = nb /\
  forall r : nat,
    r < nb ->
    vitem (errs_of_block self X X_S alphs Krow Ksum sumalphs bs lo) r
    = row_error self X_S alphs Krow Ksum sumalphs (ncols X) (item X (lo + r)).
Proof.
  intros Hsa nb. unfold errs_of_block.
  set (X_block := slice_rows X lo (lo + bs)).
  set (k_L := gramMatrix self X_block X_S).
  destruct (gramMatrix_shape self X_block X_S) as [HkR HkC].
  fold k_L in HkR, HkC.
  assert (Hnb : nrows X_block = nb) by reflexivity.
  set (f_L := bcast fsub _ _).
  assert (HfR : nrows f_L = nb /\ ncols f_L = ncols alphs).
  { unfold f_L, sum_axis0, np_dot12.
    cbn [nrows ncols bcast np_dot np_T expand_dims0 expand_dims1 np_ones2].
    rewrite !length_map, !tabulate_length, HkC, Hsa, Hnb.
    rewrite ?bdim_same, ?bdim_1_r, ?bdim_1_l, ?bdim_same. split; reflexivity. }
  destruct HfR as [HfR HfC].
  assert (Hcol : forall r, r < nb ->
            vitem (sum_axis0 k_L) r
            = fsum (nrows X_S)
                (fun i => gram_entry (gamma self) (ncols X) (ncols X_S)
                            (item X (lo + r)) (item X_S i))).
  { intros r Hr. unfold sum_axis0.
    rewrite vitem_tabulate by (rewrite HkC, Hnb; exact Hr).
    rewrite HkR. apply fsum_ext. intros i Hi.
    unfold k_L. rewrite gramMatrix_item by (rewrite ?Hnb; assumption).
    reflexivity. }
  assert (Hlen : length (sum_axis0 k_L) = nb).
  { unfold sum_axis0. now rewrite tabulate_length, HkC. }
  assert (Hf : forall r c, r < nb -> c < ncols alphs ->
            item f_L r c
            = fsub
                (fsub
                   (fsum (nrows X_S)
                      (fun l => fmul (gram_entry (gamma self) (ncols X) (ncols X_S)
                                        (item X (lo + r)) (item X_S l))
                                     (item alphs l c)))
                   (fmul (fmul (vitem sumalphs c) f1)
                      (fsub (fdiv (fsum (nrows X_S)
                                     (fun i => gram_entry (gamma self) (ncols X)
                                                 (ncols X_S) (item X (lo + r))
                                                 (item X_S i)))
                                  (fof_Z (Z.of_nat (nrows X_S)))) Ksum)))
                (fmul f1 (vitem (np_dot12 Krow alphs) c))).
  { intros r c Hr Hc. unfold f_L.
    cbn [item nrows ncols bcast np_dot np_T expand_dims0 expand_dims1 np_ones2].
    unfold np_dot12 at 1 2 3 4.
    rewrite !length_map, !tabulate_length, Hlen, HkC, HkR, Hsa, Hnb.
    rewrite ?bdim_same, ?bdim_1_r, ?bdim_1_l, ?bdim_same.
    rewrite !(bidx_lt Hr), !(bidx_lt Hc).
    rewrite vitem_map by (rewrite Hlen; exact Hr).
    rewrite (Hcol r Hr).
    f_equal. f_equal.
    apply fsum_ext. intros l Hl.
    unfold k_L. rewrite gramMatrix_item by (rewrite ?Hnb; assumption).
    reflexivity. }
  split.
  - unfold vzip. now rewrite tabulate_length, length_map.
  - intros r Hr. unfold vzip.
    rewrite length_map, Hlen, vitem_tabulate by exact Hr.
    rewrite vitem_map by (rewrite Hlen; exact Hr).
    rewrite (Hcol r Hr). unfold np_diag.
    cbn [nrows ncols np_dot np_T]. rewrite HfR, Nat.min_id.
    rewrite vitem_tabulate by exact Hr.
    cbn [item np_dot np_T]. rewrite HfC.
    unfold row_error. f_equal.
    apply fsum_ext. intros c Hc. now rewrite (Hf r c Hr Hc).
Qed.

Lemma fold_blocks (n b : nat) (G : nat -> list F) (E : nat -> F) :
  1 <= b ->
  (forall lo : nat,
      lo < n ->
      length (G lo) = Nat.min (lo + b) n - lo /\
      forall r : nat, r < Nat.min (lo + b) n - lo -> vitem (G lo) r = E (lo + r)) ->
  forall (fuel start : nat) (errs : list F),
    length errs = n ->
    n - start <= fuel ->
    let res := fold_left (fun errs lo => assign_slice errs lo (lo + b) (G lo))
                 (range_from fuel start n b) errs in
    length res = n /\
    forall i : nat,
      i < n -> vitem res i = if i <? start then vitem errs i else E i.
Proof.
  intros Hb HG. induction fuel as [|fuel IH]; intros start errs Hlen Hfuel.
  - cbn [range_from fold_left]. split; [exact Hlen|]. intros i Hi.
    destruct (Nat.ltb_spec i start); [reflexivity | lia].
  - cbn [range_from]. destruct (Nat.ltb_spec start n) as [Hs|Hs].
    + cbn [fold_left].
      destruct (HG start Hs) as [HGl HGi].
      destruct (@assign_slice_spec F NF errs (G start) start (start + b)) as [Hal Hai];
        [lia | lia | now rewrite Hlen |].
      destruct (IH (start + b) (assign_slice errs start (start + b) (G start)))
        as [Hrl Hri]; [now rewrite Hal | lia |].
      split; [exact Hrl|]. intros i Hi. rewrite (Hri i Hi).
      rewrite Hai by now rewrite Hlen. rewrite Hlen.
      destruct (Nat.ltb_spec i (start + b)) as [H1|H1];
        destruct (Nat.leb_spec start i) as [H2|H2];
        destruct (Nat.ltb_spec i (Nat.min (start + b) n)) as [H3|H3];
        destruct (Nat.ltb_spec i start) as [H4|H4];
        cbn [andb]; try reflexivity; try lia.
      rewrite HGi by lia. f_equal. lia.
    + cbn [fold_left]. split; [exact Hlen|]. intros i Hi.
      destruct (Nat.ltb_spec i start); [reflexivity | lia].
Qed.

(** With any positive [batch_size], the result is the vector of the errors
    of the rows of [X], in the order of the rows. *)
Lemma calc_reconstructionErrors_rows (self : kPCA F) (X X_S K_mat alphs : array2 F) :
  (0 < batch_size self)%Z ->
  let n_sub := fof_Z (Z.of_nat (nrows X_S)) in
  let Krow := map (fun x => fdiv x n_sub) (sum_axis0 K_mat) in
  let Ksum := fdiv (vsum Krow) n_sub in
  let sumalphs := np_dot12 (np_ones (nrows X_S)) alphs in
  calc_reconstructionErrors self X X_S K_mat alphs
  = Ok (tabulate (nrows X)
          (fun i => row_error self X_S alphs Krow Ksum sumalphs (ncols X) (item X i))).
Proof.
  intros Hbs n_sub Krow Ksum sumalphs. unfold calc_reconstructionErrors, py_range.
  destruct (Z.eqb_spec (batch_size self) 0) as [H0|_]; [lia|].
  destruct (Z.ltb_spec (batch_size self) 0) as [H0|_]; [lia|].
  f_equal. fold n_sub. fold Krow. fold Ksum. fold sumalphs.
  set (b := Z.to_nat (batch_size self)).
  destruct (@fold_blocks (nrows X) b
              (errs_of_block self X X_S alphs Krow Ksum sumalphs b)
              (fun i => row_error self X_S alphs Krow Ksum sumalphs (ncols X) (item X i)))
    with (fuel := nrows X) (start := 0) (errs := np_zeros (F := F) (nrows X))
    as [Hl Hi].
  - unfold b. lia.
  - intros lo Hlo.
    destruct (@errs_of_block_spec self X X_S alphs Krow Ksum sumalphs b lo) as [H1 H2].
    + apply np_dot12_length.
    + rewrite (Nat.min_l lo (nrows X)) in H1, H2 by lia. split; assumption.
  - unfold np_zeros. apply repeat_length.
  - lia.
  - apply list_eq_tabulate; [exact Hl|]. intros i Hlt. now rewrite (Hi i Hlt).
Qed.

(** C7.  Blocking does not change the result: for every detector state,
    model [(X_S, K_mat, alphs)] and query matrix with at least one row (so
    that its number of rows is a batch size), [calc_reconstructionErrors]
    returns with [batch_size = 1] the very vector it returns with
    [batch_size = n_samples]: one error per row of the query, entry [i]
    being the error of row [i].  The equality is exact, whatever the
    arithmetic. *)
Theorem C7_blocking_transparent :
  forall (self : kPCA F) (X_q X_S K_mat alphs : array2 F),
    0 < nrows X_q ->
    exists errs : list F,
      calc_reconstructionErrors (with_batch_size 1 self) X_q X_S K_mat alphs = Ok errs /\
      calc_reconstructionErrors (with_batch_size (Z.of_nat (nrows X_q)) self)
        X_q X_S K_mat alphs = Ok errs /\
      length errs = nrows X_q /\
      forall i : nat,
        i < nrows X_q ->
        vitem errs i
        = row_error self X_S alphs
            (map (fun x => fdiv x (fof_Z (Z.of_nat (nrows X_S)))) (sum_axis0 K_mat))
            (fdiv (vsum (map (fun x => fdiv x (fof_Z (Z.of_nat (nrows X_S))))
                             (sum_axis0 K_mat)))
                  (fof_Z (Z.of_nat (nrows X_S))))
            (np_dot12 (np_ones (nrows X_S)) alphs)
            (ncols X_q) (item X_q i).
Proof.
  intros self X_q X_S K_mat alphs Hn.
  eexists. split; [|split; [|split]].
  - apply calc_reconstructionErrors_rows. reflexivity.
  - rewrite calc_reconstructionErrors_rows by (cbn [batch_size with_batch_size]; lia).
    reflexivity.
  - apply tabulate_length.
  - intros i Hi. rewrite vitem_tabulate by exact Hi. reflexivity.
Qed.

End GramAndErrors.

Lemma C7_blocking_transparent_witness :
  0 < nrows (of_rows [[0%R]; [1%R]]) /\
  calc_reconstructionErrors (with_batch_size 1 (new_kPCA (QInt 1)))
    (of_rows [[0%R]; [1%R]]) (of_rows [[0%R]]) (of_rows [[1%R]]) (of_rows [[1%R]])
  = calc_reconstructionErrors (with_batch_size 2 (new_kPCA (QInt 1)))
      (of_rows [[0%R]; [1%R]]) (of_rows [[0%R]]) (of_rows [[1%R]]) (of_rows [[1%R]]).
Proof.
  split; [cbn; lia|].
  destruct (@C7_blocking_transparent R _ _ (new_kPCA (QInt 1))
              (of_rows [[0%R]; [1%R]]) (of_rows [[0%R]]) (of_rows [[1%R]])
              (of_rows [[1%R]])) as (errs & H1 & H2 & _); [cbn; lia|].
  rewrite H1. symmetry. exact H2.
Defined.

(* ================================================================= *)
(** ** Double centering *)

Section Centering.

Context {F : Type} {NF : Numeric F}.

(** The inner loop over [j] writes row [i] up to column [m]. *)
Lemma inner_loop_item (g : nat -> nat -> F) (i m : nat) (A : array2 F) :
  let A' := fold_left (fun A j => set_item A i j (g i j)) (seq 0 m) A in
  nrows A' = nrows A /\ ncols A' = ncols A /\
  forall i' j' : nat,
    item A' i' j' = if (i' =? i) && (j' <? m) then g i j' else item A i' j'.
Proof.
  induction m as [|m IH]; cbn zeta.
  - cbn [seq fold_left]. repeat split. intros i' j'.
    destruct (i' =? i); reflexivity.
  - rewrite seq_S, fold_left_app. cbn [fold_left Nat.add].
    destruct IH as (HR & HC & HI). cbn [nrows ncols item set_item].
    repeat split; try assumption. intros i' j'. rewrite HI.
    destruct (Nat.eqb_spec i' i), (Nat.eqb_spec j' m), (Nat.ltb_spec j' m),
      (Nat.ltb_spec j' (S m)); cbn [andb]; subst; try reflexivity; lia.
Qed.

Lemma outer_loop_item (g : nat -> nat -> F) (n m : nat) (A : array2 F) :
  let A' := fold_left
              (fun A i => fold_left (fun A j => set_item A i j (g i j)) (seq 0 m) A)
              (seq 0 n) A in
  nrows A' = nrows A /\ ncols A' = ncols A /\
  forall i' j' : nat,
    item A' i' j' = if (i' <? n) && (j' <? m) then g i' j' else item A i' j'.
Proof.
  induction n as [|n IH]; cbn zeta.
  - cbn [seq fold_left]. repeat split.
  - rewrite seq_S, fold_left_app. cbn [fold_left Nat.add].
    destruct IH as (HR & HC & HI).
    match goal with |- context [fold_left _ (seq 0 m) ?B] =>
      destruct (inner_loop_item g n m B) as (HR' & HC' & HI') end.
    repeat split; try congruence. intros i' j'. rewrite HI', HI.
    destruct (Nat.eqb_spec i' n), (Nat.ltb_spec i' n), (Nat.ltb_spec i' (S n)),
      (Nat.ltb_spec j' m); cbn [andb]; subst; try reflexivity; lia.
Qed.

Lemma fit_K_centered_item (K_mat : array2 F) (n_sub : nat) :
  let Krow := map (fun x => fdiv x (fof_Z (Z.of_nat n_sub))) (sum_axis0 K_mat) in
  let Ksum := fdiv (vsum Krow) (fof_Z (Z.of_nat n_sub)) in
  nrows (fit_K_centered K_mat n_sub) = nrows K_mat /\
  ncols (fit_K_centered K_mat n_sub) = ncols K_mat /\
  forall i j : nat,
    i < nrows K_mat -> j < ncols K_mat ->
    item (fit_K_centered K_mat n_sub) i j
    = fadd (fsub (fsub (item K_mat i j) (vitem Krow i)) (vitem Krow j)) Ksum.
Proof.
  intros Krow Ksum. unfold fit_K_centered. fold Krow. fold Ksum.
  match goal with |- context [fold_left _ (seq 0 (nrows K_mat)) ?B] =>
    destruct (outer_loop_item
                (fun i j => fadd (fsub (fsub (item K_mat i j) (vitem Krow i)) (vitem Krow j)) Ksum)
                (nrows K_mat) (ncols K_mat) B) as (HR & HC & HI) end.
  repeat split; try assumption. intros i j Hi Hj. rewrite HI.
  destruct (Nat.ltb_spec i (nrows K_mat)), (Nat.ltb_spec j (ncols K_mat));
    cbn [andb]; try reflexivity; lia.
Qed.
End Centering.

(* ================================================================= *)
(** ** Exact arithmetic: the kernel values and the centred sums *)

Section RealSums.

Local Open Scope R_scope.

Lemma fsum_R_S (n : nat) (f : nat -> R) : fsum (S n) f = fsum n f + f n.
Proof. reflexivity. Qed.

Lemma fsum_R_0 (f : nat -> R) : fsum 0 f = 0.
Proof. reflexivity. Qed.

Lemma IZR_of_nat_S (n : nat) : IZR (Z.of_nat (S n)) = IZR (Z.of_nat n) + 1.
Proof. now rewrite Nat2Z.inj_succ, succ_IZR. Qed.

Lemma fsum_R_centred (n : nat) (a c : nat -> R) (x y : R) :
  fsum n (fun j => a j - x - c j + y)
  = fsum n a - IZR (Z.of_nat n) * x - fsum n c + IZR (Z.of_nat n) * y.
Proof.
  induction n as [|n IH].
  - rewrite !fsum_R_0. cbn. lra.
  - rewrite !fsum_R_S, IH, IZR_of_nat_S. lra.
Qed.

Lemma fsum_R_centred' (n : nat) (a c : nat -> R) (x y : R) :
  fsum n (fun i => a i - c i - x + y)
  = fsum n a - fsum n c - IZR (Z.of_nat n) * x + IZR (Z.of_nat n) * y.
Proof.
  induction n as [|n IH].
  - rewrite !fsum_R_0. cbn. lra.
  - rewrite !fsum_R_S, IH, IZR_of_nat_S. lra.
Qed.

Lemma fsum_R_sqdist (d : nat) (a b : nat -> R) :
  fsum d (fun l => (a l - b l) * (a l - b l))
  = fsum d (fun l => a l * a l) + fsum d (fun l => b l * b l)
    - 2 * fsum d (fun l => a l * b l).
Proof.
  induction d as [|d IH].
  - rewrite !fsum_R_0. lra.
  - rewrite !fsum_R_S, IH. lra.
Qed.

Lemma IZR_of_nat_pos (n : nat) : (0 < n)%nat -> IZR (Z.of_nat n) <> 0.
Proof. intros Hn. apply not_0_IZR. lia. Qed.

Lemma Q2R_gamma (sigma : Q) :
  ~ (sigma == 0)%Q ->
  Q2R (1 / 2 / sigma / sigma) = 1 / (2 * Q2R sigma * Q2R sigma).
Proof.
  intros Hs.
  assert (HR : Q2R sigma <> 0).
  { intros H. apply Hs. apply eqR_Qeq. rewrite H. unfold Q2R. cbn. lra. }
  rewrite !Q2R_div by (try exact Hs; discriminate).
  replace (Q2R 1) with 1 by (unfold Q2R; cbn; lra).
  replace (Q2R 2) with 2 by (unfold Q2R; cbn; lra).
  field. exact HR.
Qed.

Lemma gram_entry_rbf (gam : Q) (d : nat) (x s : nat -> R) :
  gram_entry gam d d x s
  = exp (- Q2R gam * fsum d (fun l => (s l - x l) * (s l - x l))).
Proof.
  unfold gram_entry. cbn [fexp fmul fopp fof_Q fsub fadd f0 f1 fof_Z
                          R_numeric R_exponential].
  f_equal. rewrite fsum_R_sqdist. lra.
Qed.

(** Over the reals, the centred matrix in terms of the column means. *)
Lemma fit_K_centered_R (K : array2 R) (n : nat) :
  nrows K = n -> ncols K = n ->
  (forall i j : nat, (i < n)%nat -> (j < n)%nat -> item K i j = item K j i) ->
  forall i j : nat, (i < n)%nat -> (j < n)%nat ->
    item (fit_K_centered K n) i j
    = item K i j - row_mean K n i - row_mean K n j + grand_mean K n.
Proof.
  intros HR HC Hsym i j Hi Hj.
  destruct (fit_K_centered_item K n) as (_ & _ & HI).
  rewrite HI by lia. clear HI.
  assert (Hrow : forall k, (k < n)%nat ->
            vitem (map (fun x : R => fdiv x (fof_Z (Z.of_nat n))) (sum_axis0 K)) k
            = row_mean K n k).
  { intros k Hk. unfold sum_axis0. rewrite HR, HC.
    rewrite vitem_map by now rewrite tabulate_length.
    rewrite vitem_tabulate by exact Hk. unfold row_mean.
    cbn [fdiv fof_Z R_numeric]. f_equal.
    apply fsum_ext. intros l Hl. now apply Hsym. }
  rewrite (Hrow i Hi), (Hrow j Hj).
  cbn [fadd fsub fdiv fof_Z R_numeric]. f_equal.
  unfold grand_mean, vsum. f_equal.
  unfold sum_axis0 at 1. rewrite length_map, tabulate_length, HC.
  apply fsum_ext. intros k Hk. now apply Hrow.
Qed.

Lemma row_mean_total (K : array2 R) (n i : nat) :
  (0 < n)%nat -> IZR (Z.of_nat n) * row_mean K n i = fsum n (fun j => item K i j).
Proof. intros Hn. unfold row_mean. field. now apply IZR_of_nat_pos. Qed.

Lemma grand_mean_total (K : array2 R) (n : nat) :
  (0 < n)%nat -> IZR (Z.of_nat n) * grand_mean K n = fsum n (row_mean K n).
Proof. intros Hn. unfold grand_mean. field. now apply IZR_of_nat_pos. Qed.

(** C6 (amended).  For two point sets with the same number of columns,
    [gramMatrix(A, B)] has one row per row of its second argument [B] and
    one column per row of its first argument [A]: its shape is [m2 x m1],
    and its entry [[i, j]] is the RBF value of [B[i]] and [A[j]],
    [exp(- |B[i] - A[j]|^2 / (2 sigma^2))]. *)
Theorem C6_gramMatrix_transposed :
  forall (order : Z) (qv : qparam) (sigma sample_pct : Q) (shrinking : bool)
         (batch_size : Z) (contamination : Q) (verbose : bool)
         (self : kPCA R) (A B : array2 R),
    __init__ order qv sigma sample_pct shrinking batch_size contamination verbose
    = Ok self ->
    ncols A = ncols B ->
    nrows (gramMatrix self A B) = nrows B /\
    ncols (gramMatrix self A B) = nrows A /\
    forall i j : nat,
      (i < nrows B)%nat -> (j < nrows A)%nat ->
      item (gramMatrix self A B) i j
      = rbf_kernel (Q2R sigma) (ncols A) (item B i) (item A j).
Proof.
  intros order qv sigma sample_pct shrinking batch_size contamination verbose
         self A B Hinit Hd.
  unfold __init__ in Hinit.
  destruct (Qeq_bool sigma 0) eqn:Hs; [discriminate|].
  apply Qeq_bool_neq in Hs. injection Hinit as <-.
  destruct (gramMatrix_shape
              {| sigma := sigma; gamma := (1 / 2 / sigma / sigma)%Q; order := order;
                 q := qv; sample_pct := sample_pct; batch_size := batch_size;
                 contamination := contamination; verbose := verbose;
                 d_features := None; n_sub := None; model_alphas := None;
                 model_X_S := None; model_K_mat := None; decision_scores_ := None;
                 threshold_ := None; labels_ := None |} A B) as [HR HC].
  split; [exact HR|]. split; [exact HC|].
  intros i j Hi Hj. rewrite gramMatrix_item by assumption.
  cbn [gamma]. rewrite <- Hd, gram_entry_rbf, Q2R_gamma by exact Hs.
  reflexivity.
Qed.

(** C8.  For a symmetric [n x n] matrix, the centring loop of [fit] yields
    [K[i,j] - Krow[i] - Krow[j] + Ksum] with [Krow] the row means and [Ksum]
    the grand mean, and every row and every column of the result sums to
    zero, exactly. *)
Theorem C8_centering_sums_to_zero :
  forall (K : array2 R) (n : nat),
    nrows K = n -> ncols K = n ->
    (forall i j : nat, (i < n)%nat -> (j < n)%nat -> item K i j = item K j i) ->
    (forall i j : nat, (i < n)%nat -> (j < n)%nat ->
        item (fit_K_centered K n) i j
        = item K i j - row_mean K n i - row_mean K n j + grand_mean K n) /\
    (forall i : nat, (i < n)%nat -> fsum n (fun j => item (fit_K_centered K n) i j) = 0) /\
    (forall j : nat, (j < n)%nat -> fsum n (fun i => item (fit_K_centered K n) i j) = 0).
Proof.
  intros K n HR HC Hsym.
  pose proof (fit_K_centered_R K HR HC Hsym) as Hitem.
  split; [exact Hitem|]. split.
  - intros i Hi.
    rewrite (fsum_ext _ (fun j => item K i j - row_mean K n i - row_mean K n j
                                        + grand_mean K n))
      by (intros j Hj; now apply Hitem).
    rewrite (fsum_R_centred n (fun j => item K i j) (row_mean K n)).
    rewrite row_mean_total, grand_mean_total by lia. lra.
  - intros j Hj.
    rewrite (fsum_ext _ (fun i => item K i j - row_mean K n i - row_mean K n j
                                        + grand_mean K n))
      by (intros i Hi; now apply Hitem).
    rewrite (fsum_R_centred' n (fun i => item K i j) (row_mean K n)).
    rewrite row_mean_total, grand_mean_total by lia.
    rewrite (fsum_ext (fun i => item K i j) (fun i => item K j i))
      by (intros i Hi; now apply Hsym).
    lra.
Qed.

End RealSums.

Lemma C6_gramMatrix_transposed_witness :
  __init__ 3 (QStr "same") 1 1 true 500 (1 # 10)%Q false
  = Ok (@new_kPCA R (QStr "same")) /\
  ncols (of_rows [[0%R]]) = ncols (of_rows [[0%R]; [1%R]]) /\
  nrows (gramMatrix (new_kPCA (QStr "same")) (of_rows [[0%R]]) (of_rows [[0%R]; [1%R]]))
  = 2.
Proof.
  split; [reflexivity|]. split; [reflexivity|].
  destruct (@C6_gramMatrix_transposed 3 (QStr "same") 1 1 true 500 (1 # 10)%Q false
              (new_kPCA (QStr "same")) (of_rows [[0%R]]) (of_rows [[0%R]; [1%R]]))
    as (HR & _); [reflexivity | reflexivity |].
  exact HR.
Defined.

(** C6 as stated fails: with [A] of one row and [B] of two rows the result
    has two rows and one column, not one row and two columns. *)
Lemma C6_counterexample :
  nrows (of_rows [[0%R]]) = 1 /\
  nrows (of_rows [[0%R]; [1%R]]) = 2 /\
  nrows (gramMatrix (new_kPCA (QStr "same")) (of_rows [[0%R]]) (of_rows [[0%R]; [1%R]]))
  = 2 /\
  ncols (gramMatrix (new_kPCA (QStr "same")) (of_rows [[0%R]]) (of_rows [[0%R]; [1%R]]))
  = 1.
Proof.
  destruct (gramMatrix_shape (new_kPCA (QStr "same"))
              (of_rows [[0%R]]) (of_rows [[0%R]; [1%R]])) as [HR HC].
  repeat split; assumption.
Qed.

Lemma C8_centering_sums_to_zero_witness :
  nrows (of_rows [[1%R; 2%R]; [2%R; 1%R]]) = 2 /\
  ncols (of_rows [[1%R; 2%R]; [2%R; 1%R]]) = 2 /\
  fsum 2 (fun j => item (fit_K_centered (of_rows [[1%R; 2%R]; [2%R; 1%R]]) 2) 0 j)
  = 0%R.
Proof.
  split; [reflexivity|]. split; [reflexivity|].
  destruct (@C8_centering_sums_to_zero (of_rows [[1%R; 2%R]; [2%R; 1%R]]) 2)
    as (_ & Hrow & _).
  - reflexivity.
  - reflexivity.
  - intros i j Hi Hj.
    destruct i as [|[|i]]; destruct j as [|[|j]]; try lia; reflexivity.
  - apply Hrow. lia.
Defined.

(* ================================================================= *)
(** * Further properties of the methods *)

(** ** Python's [int] on the rationals *)

Lemma py_int_floor (x : Q) : (0 <= x)%Q -> py_int x = Qfloor x.
Proof.
  destruct x as [a b]. unfold Qle, py_int, Qfloor. cbn. intros H.
  apply Z.quot_div_nonneg; lia.
Qed.

Lemma py_int_ge (x : Q) (d : Z) :
  (0 <= d)%Z -> (inject_Z d <= x)%Q -> (d <= py_int x)%Z.
Proof.
  intros Hd Hx.
  assert (H0 : (0 <= x)%Q).
  { apply Qle_trans with (inject_Z d); [|exact Hx].
    change 0%Q with (inject_Z 0). now rewrite <- Zle_Qle. }
  rewrite py_int_floor by exact H0.
  rewrite <- (Qfloor_Z d). now apply Qfloor_resp_le.
Qed.

Lemma py_int_zero_rows (p : Q) : py_int (p * inject_Z 0)%Q = 0%Z.
Proof.
  destruct p as [a b]. unfold py_int, Qmult, inject_Z. cbn.
  rewrite Z.mul_0_r. apply Z.quot_0_l. lia.
Qed.

Lemma adjusted_pct_covers (m : Z) (n d : nat) :
  n <> 0 -> (Z.of_nat d <= m)%Z ->
  (py_int ((inject_Z m / inject_Z (Z.of_nat n) + 1 / 1000)
           * inject_Z (Z.of_nat n))%Q <? Z.of_nat d)%Z = false.
Proof.
  intros Hn Hm. apply Z.ltb_ge. apply py_int_ge; [lia|].
  assert (Hn0 : ~ (inject_Z (Z.of_nat n) == 0)%Q).
  { change 0%Q with (inject_Z 0). rewrite inject_Z_injective. lia. }
  assert (Hnpos : (0 <= inject_Z (Z.of_nat n))%Q).
  { change 0%Q with (inject_Z 0). rewrite <- Zle_Qle. lia. }
  assert (Hdm : (inject_Z (Z.of_nat d) <= inject_Z m)%Q) by now rewrite <- Zle_Qle.
  setoid_replace ((inject_Z m / inject_Z (Z.of_nat n) + 1 / 1000)
                  * inject_Z (Z.of_nat n))%Q
    with (inject_Z m + inject_Z (Z.of_nat n) * (1 # 1000))%Q by (field; exact Hn0).
  Lqa.lra.
Qed.

(* ================================================================= *)
(** ** [fit]: when it returns, and what it leaves *)

Section FitMore.
Context {F : Type} {NF : Numeric F} {EF : Exponential F} {Env : NumpyEnv F}.

(** Every run of [fit] that returns went through these steps. *)
Lemma fit_inv (X : array2 F) (self self' : kPCA F) :
  fit (A2 X) self = (Ok tt, self') ->
  exists (self2 : kPCA F) (alphs : array2 F) (errs : list F) (t : F),
    fit_adjusted X self self2 /\
    Qltb (sample_pct self2) 1 = false /\
    eigenDecomp_gramMatrix self2 (fit_K_centered (fit_K_mat self2 X) (nrows X)) = Ok alphs /\
    calc_reconstructionErrors self2 X X (fit_K_mat self2 X) alphs = Ok errs /\
    np_quantile errs (1 - contamination self2)%Q = Ok t /\
    self' = fit_result X self2 alphs errs t.
Proof.
  unfold fit. intros H.
  bind_step H u0 s0 E. injection E as <- <-.
  bind_step H u1 s1 E. injection E as <- <-.
  bind_step H u2 s2 E.
  assert (Hadj : fit_adjusted X self s2).
  { unfold fit_adjusted. cbn [sample_pct set_d_features] in E.
    destruct (_ <? _)%Z eqn:Htest in E.
    - right. cbn [q set_d_features] in E. destruct (q self) as [qz|] eqn:Hq; [|discriminate].
      bind_step E u3 s3 E'. injection E' as <- <-.
      destruct (Nat.eqb_spec (nrows X) 0) as [Hn|Hn]; [discriminate|].
      injection E as _ <-. exists qz. repeat split; assumption.
    - left. injection E as _ <-. split; [assumption | reflexivity]. }
  clear E.
  bind_step H u3 s3 E. injection E as <- <-.
  bind_step H X_S s4 E.
  destruct (Qltb (sample_pct s2) 1) eqn:Hpct; [discriminate|].
  injection E as <- <-.
  bind_step H alphs s5 E. unfold lift in E. injection E as Heig <-.
  bind_step H u6 s6 E. injection E as <- <-.
  bind_step H u7 s7 E. injection E as <- <-.
  bind_step H u8 s8 E. injection E as <- <-.
  bind_step H u9 s9 E. injection E as <- <-.
  bind_step H errs s10 E. unfold lift in E. injection E as Hcalc <-.
  bind_step H u11 s11 E. injection E as <- <-.
  bind_step H scores s12 E. cbv [getattr decision_scores_ set_decision_scores_] in E.
  injection E as <- <-.
  bind_step H u13 s13 E. injection E as <- <-.
  bind_step H labels s14 E. rewrite threshold_eq in E.
  cbn [contamination set_decision_scores_ set_model_K_mat set_model_X_S
       set_model_alphas] in E.
  destruct (np_quantile errs (1 - contamination s2)%Q) as [t|e] eqn:Hq; [|discriminate].
  injection E as <- <-.
  bind_step H u15 s15 E. injection E as <- <-.
  injection H as <-.
  exists s2, alphs, errs, t. repeat split; try assumption.
Qed.

(** Conversely, these steps make [fit] return. *)
Lemma fit_ok (X : array2 F) (self self2 : kPCA F) (alphs : array2 F)
    (errs : list F) (t : F) :
  fit_adjusted X self self2 ->
  Qltb (sample_pct self2) 1 = false ->
  eigenDecomp_gramMatrix self2 (fit_K_centered (fit_K_mat self2 X) (nrows X)) = Ok alphs ->
  calc_reconstructionErrors self2 X X (fit_K_mat self2 X) alphs = Ok errs ->
  np_quantile errs (1 - contamination self2)%Q = Ok t ->
  fit (A2 X) self = (Ok tt, fit_result X self2 alphs errs t).
Proof.
  intros Hadj Hpct Heig Hcalc Hq. unfold fit.
  erewrite bind_ok by reflexivity.
  erewrite bind_ok by reflexivity.
  assert (Hstep :
    (if (py_int (sample_pct (set_d_features (ncols X) self)
                 * inject_Z (Z.of_nat (nrows X)))%Q <? Z.of_nat (ncols X))%Z
     then
       match q (set_d_features (ncols X) self) with
       | QStr _ => raise TypeError
       | QInt qz =>
           bind (modify (set_n_sub (Z.max qz (Z.of_nat (ncols X)))))
             (fun _ =>
                if nrows X =? 0 then raise ZeroDivisionError
                else modify (set_sample_pct
                               (inject_Z (Z.max qz (Z.of_nat (ncols X)))
                                / inject_Z (Z.of_nat (nrows X)) + 1 / 1000)%Q))
       end
     else ret tt) (set_d_features (ncols X) self) = (Ok tt, self2)).
  { cbn [sample_pct q set_d_features].
    destruct Hadj as [[Ht ->] | (qz & Ht & Hqz & Hn & ->)]; rewrite Ht.
    - reflexivity.
    - rewrite Hqz. unfold bind, modify.
      destruct (Nat.eqb_spec (nrows X) 0); [contradiction | reflexivity]. }
  erewrite bind_ok by exact Hstep.
  erewrite bind_ok by reflexivity.
  rewrite Hpct.
  erewrite bind_ok by reflexivity.
  erewrite bind_ok by (unfold lift; apply f_equal2; [exact Heig | reflexivity]).
  erewrite bind_ok by reflexivity.
  erewrite bind_ok by reflexivity.
  erewrite bind_ok by reflexivity.
  erewrite bind_ok by reflexivity.
  erewrite bind_ok by (unfold lift; apply f_equal2; [exact Hcalc | reflexivity]).
  erewrite bind_ok by reflexivity.
  erewrite bind_ok by reflexivity.
  erewrite bind_ok by reflexivity.
  erewrite bind_ok
    by (rewrite threshold_eq;
        cbn [contamination set_decision_scores_ set_model_K_mat set_model_X_S
             set_model_alphas];
        rewrite Hq; reflexivity).
  erewrite bind_ok by reflexivity.
  reflexivity.
Qed.
End FitMore.

Section FitProperties.

Context {F : Type} {NF : Numeric F} {EF : Exponential F} {Env : NumpyEnv F}.

Lemma fit_adjusted_d_features (X : array2 F) (self self2 : kPCA F) :
  fit_adjusted X self self2 ->
  d_features self2 = Some (ncols X) /\ same_config self self2.
Proof.
  intros [[_ ->] | (qz & _ & _ & _ & ->)]; split; try reflexivity;
    repeat split.
Qed.

Lemma fit_adjusted_test (X : array2 F) (self self2 : kPCA F) :
  fit_adjusted X self self2 ->
  (py_int (sample_pct self2 * inject_Z (Z.of_nat (nrows X)))%Q <? Z.of_nat (ncols X))%Z
  = false.
Proof.
  intros [[Ht ->] | (qz & _ & _ & Hn & ->)].
  - exact Ht.
  - cbn [sample_pct set_sample_pct]. apply adjusted_pct_covers; [exact Hn | lia].
Qed.

Lemma fit_K_mat_gamma (s1 s2 : kPCA F) (X : array2 F) :
  gamma s1 = gamma s2 -> fit_K_mat s1 X = fit_K_mat s2 X.
Proof. unfold fit_K_mat, gramMatrix. now intros ->. Qed.

Lemma eigenDecomp_q (s1 s2 : kPCA F) (K : array2 F) :
  q s1 = q s2 -> eigenDecomp_gramMatrix s1 K = eigenDecomp_gramMatrix s2 K.
Proof. unfold eigenDecomp_gramMatrix. now intros ->. Qed.

Lemma calc_same_parameters (s1 s2 : kPCA F) (X X_S K_mat alphs : array2 F) :
  gamma s1 = gamma s2 -> batch_size s1 = batch_size s2 ->
  calc_reconstructionErrors s1 X X_S K_mat alphs
  = calc_reconstructionErrors s2 X X_S K_mat alphs.
Proof.
  unfold calc_reconstructionErrors, errs_of_block, gramMatrix. now intros -> ->.
Qed.

(** Storing the same results a second time changes nothing. *)
Lemma fit_result_absorb (X : array2 F) (s : kPCA F) (alphs : array2 F)
    (errs : list F) (t : F) (d : nat) :
  d_features s = Some d ->
  fit_result X (set_d_features d (fit_result X s alphs errs t)) alphs errs t
  = fit_result X s alphs errs t.
Proof.
  intros Hd.
  assert (HK : fit_K_mat (set_d_features d (fit_result X s alphs errs t)) X
               = fit_K_mat s X) by (apply fit_K_mat_gamma; reflexivity).
  unfold fit_result at 1. rewrite HK. unfold fit_result.
  generalize (fit_K_mat s X) as K.
  generalize (map (fun x : F => if fltb x t then f0 else f1) errs) as L.
  intros L K. destruct s. cbn in Hd. subst. vm_compute. reflexivity.
Qed.

(** X8.  [fit] is idempotent: when [fit(X)] returns, a second [fit(X)] on
    the fitted detector returns too and leaves every attribute as the first
    call left it (the adjusted [sample_pct] already covers [d_features], the
    whole of [X] is used again, and the model is recomputed to the same
    values). *)
Theorem fit_idempotent :
  forall (X : ndarray F) (self self' : kPCA F),
    fit X self = (Ok tt, self') ->
    fit X self' = (Ok tt, self').
Proof.
  intros [v|X] self self' Hfit; [discriminate|].
  destruct (fit_inv X self Hfit) as (self2 & alphs & errs & t & Hadj & Hpct & Heig
                                     & Hcalc & Hq & ->).
  pose proof (fit_adjusted_test Hadj) as Htest.
  destruct (fit_adjusted_d_features Hadj) as [Hd _].
  set (s' := fit_result X self2 alphs errs t).
  assert (HK : fit_K_mat (set_d_features (ncols X) s') X = fit_K_mat self2 X)
    by (apply fit_K_mat_gamma; reflexivity).
  rewrite (@fit_ok _ _ _ _ X s' (set_d_features (ncols X) s') alphs errs t).
  - f_equal. now apply fit_result_absorb.
  - left. split; [exact Htest | reflexivity].
  - exact Hpct.
  - rewrite HK, <- Heig. now apply eigenDecomp_q.
  - rewrite HK, <- Hcalc. now apply calc_same_parameters.
  - exact Hq.
Qed.

End FitProperties.

Section FitFrame.

Context {F : Type} {NF : Numeric F} {EF : Exponential F} {Env : NumpyEnv F}.

Lemma same_config_refl (self : kPCA F) : same_config self self.
Proof. repeat split. Qed.

Lemma same_config_trans (s1 s2 s3 : kPCA F) :
  same_config s1 s2 -> same_config s2 s3 -> same_config s1 s3.
Proof.
  unfold same_config. intros (A1 & A2 & A3 & A4 & A5 & A6 & A7)
                             (B1 & B2 & B3 & B4 & B5 & B6 & B7).
  repeat split; congruence.
Qed.

(** A bind keeps the configuration when both of its parts do. *)
Lemma bind_same_config {A B} (m : M F A) (k : A -> M F B) (self : kPCA F) :
  same_config self (snd (m self)) ->
  (forall a s, same_config s (snd (k a s))) ->
  same_config self (snd (bind m k self)).
Proof.
  intros Hm Hk. unfold bind. destruct (m self) as [[a|e] s1]; cbn [snd] in *.
  - eapply same_config_trans; [exact Hm | apply Hk].
  - exact Hm.
Qed.

Lemma threshold_same_config (scores : list F) (c : Q) (self : kPCA F) :
  same_config self (snd (threshold scores c self)).
Proof.
  rewrite threshold_eq. destruct (np_quantile scores (1 - c)%Q); repeat split.
Qed.

(** X3.  Whatever [fit] does, return or raise, on a 1-D or a 2-D input, it
    leaves [sigma], [gamma], [order], [q], [batch_size], [contamination] and
    [verbose] as they were; of the constructor's parameters only
    [sample_pct] can be rewritten. *)
Theorem fit_keeps_configuration :
  forall (X : ndarray F) (self : kPCA F),
    same_config self (snd (fit X self)).
Proof.
  intros [v|X] self; [apply same_config_refl|]. unfold fit.
  apply bind_same_config; [repeat split|]. intros _ s0.
  apply bind_same_config; [repeat split|]. intros s1 s1'.
  apply bind_same_config.
  { destruct (_ <? _)%Z; [|repeat split].
    destruct (q s1); [|repeat split].
    apply bind_same_config; [repeat split|]. intros _ s2.
    destruct (nrows X =? 0); repeat split. }
  intros _ s2.
  apply bind_same_config; [repeat split|]. intros s3 s3'.
  apply bind_same_config.
  { destruct (Qltb _ _); [|repeat split]. unfold lift. repeat split. }
  intros X_S s4.
  apply bind_same_config; [unfold lift; repeat split|]. intros alphs s5.
  apply bind_same_config; [repeat split|]. intros _ s6.
  apply bind_same_config; [repeat split|]. intros _ s7.
  apply bind_same_config; [repeat split|]. intros _ s8.
  apply bind_same_config; [repeat split|]. intros s9 s9'.
  apply bind_same_config; [unfold lift; repeat split|]. intros errs s10.
  apply bind_same_config; [repeat split|]. intros _ s11.
  apply bind_same_config.
  { unfold getattr. destruct (decision_scores_ s11); repeat split. }
  intros scores s12.
  apply bind_same_config; [repeat split|]. intros s13 s13'.
  apply bind_same_config; [apply threshold_same_config|]. intros labels s14.
  apply bind_same_config; [repeat split|]. intros _ s15.
  repeat split.
Qed.

End FitFrame.

Section FitOutcome.

Context {F : Type} {NF : Numeric F} {EF : Exponential F} {Env : NumpyEnv F}.

Lemma Qltb_false_iff (x y : Q) : Qltb x y = false <-> (y <= x)%Q.
Proof.
  unfold Qltb. rewrite negb_false_iff. apply Qle_bool_iff.
Qed.

Lemma fit_inv_K_mat (X : array2 F) (self self' : kPCA F) :
  fit (A2 X) self = (Ok tt, self') ->
  model_K_mat self' = Some (fit_K_mat self X).
Proof.
  intros Hfit.
  destruct (fit_inv X self Hfit) as (self2 & alphs & errs & t & Hadj & _ & _ & _ & _ & ->).
  destruct Hadj as [[_ ->] | (qz & _ & _ & _ & ->)]; reflexivity.
Qed.

(** X4.  [fit] never subsamples: whenever it returns, the stored
    [model_X_S] is the whole input [X], [model_K_mat] is the symmetrised
    gram matrix of [X] with itself, [d_features] is the number of columns
    of [X], and the detector's [sample_pct] is at least 1. *)
Theorem fit_uses_whole_sample :
  forall (X : array2 F) (self self' : kPCA F),
    fit (A2 X) self = (Ok tt, self') ->
    model_X_S self' = Some X /\
    model_K_mat self' = Some (fit_K_mat self X) /\
    d_features self' = Some (ncols X) /\
    (1 <= sample_pct self')%Q.
Proof.
  intros X self self' Hfit.
  pose proof Hfit as Hfit0.
  destruct (fit_inv X self Hfit) as (self2 & alphs & errs & t & Hadj & Hpct & _ & _ & _ & ->).
  apply Qltb_false_iff in Hpct.
  destruct (fit_adjusted_d_features Hadj) as [Hd _].
  repeat split; try assumption.
  exact (fit_inv_K_mat X self Hfit0).
Qed.

(** X6.  On a matrix with no row and at least one column [fit] never
    returns: it raises [TypeError] when [q] is a string, and
    [ZeroDivisionError] (division by [X.shape[0]]) when [q] is an integer. *)
Theorem fit_no_rows_raises :
  forall (X : array2 F) (self : kPCA F),
    nrows X = 0 -> 0 < ncols X ->
    fst (fit (A2 X) self)
    = Err (match q self with
           | QStr _ => TypeError
           | QInt _ => ZeroDivisionError
           end).
Proof.
  intros X self Hn Hd. unfold fit.
  erewrite bind_ok by reflexivity.
  erewrite bind_ok by reflexivity.
  rewrite Hn. cbn [Z.of_nat]. rewrite py_int_zero_rows.
  replace (0 <? Z.of_nat (ncols X))%Z with true by (symmetry; apply Z.ltb_lt; lia).
  cbn [q set_d_features]. destruct (q self) as [qz|s]; reflexivity.
Qed.

(** The attributes of the detector [fit] leaves. *)
Lemma fit_result_fields (X : array2 F) (s : kPCA F) (alphs : array2 F)
    (errs : list F) (t : F) :
  model_X_S (fit_result X s alphs errs t) = Some X /\
  model_K_mat (fit_result X s alphs errs t) = Some (fit_K_mat s X) /\
  model_alphas (fit_result X s alphs errs t) = Some alphs /\
  decision_scores_ (fit_result X s alphs errs t) = Some errs /\
  threshold_ (fit_result X s alphs errs t) = Some t /\
  labels_ (fit_result X s alphs errs t)
  = Some (map (fun x => if fltb x t then f0 else f1) errs) /\
  gamma (fit_result X s alphs errs t) = gamma s /\
  batch_size (fit_result X s alphs errs t) = batch_size s.
Proof. repeat split. Qed.

(** X7.  After [fit(X)] has returned, [decision_function(X)] returns the
    stored [decision_scores_] again and changes nothing, and thresholding
    these scores at [threshold_] gives the stored [labels_]. *)
Theorem fit_then_decision_function :
  forall (X : array2 F) (self self' : kPCA F),
    fit (A2 X) self = (Ok tt, self') ->
    exists (scores : list F) (t : F),
      decision_function (A2 X) self' = (Ok scores, self') /\
      decision_scores_ self' = Some scores /\
      threshold_ self' = Some t /\
      labels_ self' = Some (map (fun s => if fltb s t then f0 else f1) scores).
Proof.
  intros X self self' Hfit.
  destruct (fit_inv X self Hfit) as (self2 & alphs & errs & t & _ & _ & _ & Hcalc & _ & ->).
  destruct (fit_result_fields X self2 alphs errs t)
    as (HXS & HK & Hal & Hds & Hth & Hlab & Hg & Hb).
  set (s' := fit_result X self2 alphs errs t) in *. clearbody s'.
  exists errs, t. split; [|split; [exact Hds | split; [exact Hth | exact Hlab]]].
  unfold decision_function.
  erewrite bind_ok by (apply getattr_some; exact HXS).
  erewrite bind_ok by (apply getattr_some; exact HK).
  erewrite bind_ok by (apply getattr_some; exact Hal).
  erewrite bind_ok by reflexivity.
  erewrite bind_ok
    by (unfold lift; apply f_equal2;
        [rewrite <- Hcalc; apply calc_same_parameters; assumption | reflexivity]).
  reflexivity.
Qed.

End FitOutcome.

(* ================================================================= *)
(** ** Scoring: batch sizes, lengths and rows *)

Section ScoringMore.

Context {F : Type} {NF : Numeric F} {EF : Exponential F}.

(** X10.  A [batch_size] that is not positive: with [batch_size = 0],
    [calc_reconstructionErrors] raises [ValueError] on every input; with a
    negative [batch_size] the loop is empty and the result is all zeros,
    one per row, whatever the data and the model. *)
Theorem calc_batch_size_not_positive :
  forall (self : kPCA F) (X X_S K_mat alphs : array2 F),
    (batch_size self <= 0)%Z ->
    calc_reconstructionErrors self X X_S K_mat alphs
    = if (batch_size self =? 0)%Z then Err ValueError else Ok (np_zeros (nrows X)).
Proof.
  intros self X X_S K_mat alphs Hb. unfold calc_reconstructionErrors, py_range.
  destruct (Z.eqb_spec (batch_size self) 0) as [H0|H0]; [reflexivity|].
  destruct (Z.ltb_spec (batch_size self) 0) as [H1|H1]; [reflexivity | lia].
Qed.

Lemma calc_length (self : kPCA F) (X X_S K_mat alphs : array2 F) (errs : list F) :
  calc_reconstructionErrors self X X_S K_mat alphs = Ok errs ->
  length errs = nrows X.
Proof.
  destruct (Z.ltb_spec 0 (batch_size self)) as [Hpos|Hnp].
  - rewrite calc_reconstructionErrors_rows by exact Hpos.
    intros [= <-]. apply tabulate_length.
  - unfold calc_reconstructionErrors, py_range.
    destruct (Z.eqb_spec (batch_size self) 0) as [_|H0]; [discriminate|].
    destruct (Z.ltb_spec (batch_size self) 0) as [_|H1]; [|lia].
    intros [= <-]. apply repeat_length.
Qed.

(** X11.  Whenever [decision_function] returns, it returns one score per
    row of a 2-D input and exactly one score for a 1-D input. *)
Theorem decision_function_one_score_per_row :
  forall (X_test : ndarray F) (self self' : kPCA F) (scores : list F),
    decision_function X_test self = (Ok scores, self') ->
    length scores = match X_test with
                    | A1 _ => 1
                    | A2 m => nrows m
                    end.
Proof.
  intros X_test self self' scores. unfold decision_function, bind, getattr, ask, lift, ret.
  destruct (model_X_S self) as [X_S|]; [|discriminate].
  destruct (model_K_mat self) as [K|]; [|discriminate].
  destruct (model_alphas self) as [al|]; [|discriminate].
  destruct (calc_reconstructionErrors _ _ _ _ _) as [errs|e] eqn:Hc; [|discriminate].
  intros [= <- _]. apply calc_length in Hc. rewrite Hc. now destruct X_test.
Qed.

Lemma gram_entry_ext (gam : Q) (d : nat) (x x' s : nat -> F) :
  (forall l, l < d -> x l = x' l) ->
  gram_entry gam d d x s = gram_entry gam d d x' s.
Proof.
  intros H. unfold gram_entry.
  rewrite (fsum_ext (fun l => fmul (x l) (x l)) (fun l => fmul (x' l) (x' l)))
    by (intros l Hl; now rewrite H).
  rewrite (fsum_ext (fun l => fmul (s l) (x l)) (fun l => fmul (s l) (x' l)))
    by (intros l Hl; now rewrite H).
  reflexivity.
Qed.

Lemma row_error_ext (self : kPCA F) (X_S alphs : array2 F) (Krow : list F)
    (Ksum : F) (sumalphs : list F) (x x' : nat -> F) :
  (forall l, l < ncols X_S -> x l = x' l) ->
  row_error self X_S alphs Krow Ksum sumalphs (ncols X_S) x
  = row_error self X_S alphs Krow Ksum sumalphs (ncols X_S) x'.
Proof.
  intros H. unfold row_error.
  assert (Hk : forall i,
             gram_entry (gamma self) (ncols X_S) (ncols X_S) x (item X_S i)
             = gram_entry (gamma self) (ncols X_S) (ncols X_S) x' (item X_S i))
    by (intros i; now apply gram_entry_ext).
  rewrite (fsum_ext _ (fun i => gram_entry (gamma self) (ncols X_S) (ncols X_S) x'
                                   (item X_S i))) by (intros i _; apply Hk).
  f_equal. apply fsum_ext. intros c _.
  rewrite (fsum_ext _ (fun l => fmul (gram_entry (gamma self) (ncols X_S) (ncols X_S) x'
                                        (item X_S l)) (item alphs l c)))
    by (intros l _; now rewrite Hk).
  reflexivity.
Qed.

(** X12.  A score depends on its own row only: with a positive
    [batch_size] and query matrices of the model's width, if row [i] of [X]
    and row [j] of [X'] are equal then score [i] of [X] equals score [j] of
    [X'], whatever the other rows and the numbers of rows are.  In
    particular the scores follow any reordering of the rows. *)
Theorem score_depends_on_its_row_only :
  forall (self : kPCA F) (X X' X_S K_mat alphs : array2 F)
         (errs errs' : list F) (i j : nat),
    (0 < batch_size self)%Z ->
    ncols X = ncols X_S -> ncols X' = ncols X_S ->
    i < nrows X -> j < nrows X' ->
    (forall l : nat, l < ncols X_S -> item X i l = item X' j l) ->
    calc_reconstructionErrors self X X_S K_mat alphs = Ok errs ->
    calc_reconstructionErrors self X' X_S K_mat alphs = Ok errs' ->
    vitem errs i = vitem errs' j.
Proof.
  intros self X X' X_S K_mat alphs errs errs' i j Hb Hd Hd' Hi Hj Hrow.
  rewrite !calc_reconstructionErrors_rows by exact Hb.
  intros [= <-] [= <-].
  rewrite !vitem_tabulate by assumption.
  rewrite Hd, Hd'. now apply row_error_ext.
Qed.

End ScoringMore.

(* ================================================================= *)
(** ** [predict] in every state *)

Section MoreFacade.

Context {F : Type} {NF : Numeric F} {EF : Exponential F} {Env : NumpyEnv F}.

(** X2.  [predict] never returns labels and never touches [self]: in every
    state (fitted, unfitted or half fitted), for every input, [threshold]
    argument and recursion limit, it raises [RecursionError] or the
    [AttributeError] of [threshold_]. *)
Theorem predict_never_returns :
  forall (depth : nat) (X_test : ndarray F) (thr : option F) (self : kPCA F),
    exists e : pyerr,
      predict depth X_test thr self = (Err e, self) /\
      (e = RecursionError \/ e = AttributeError "threshold_").
Proof.
  induction depth as [|depth IH]; intros X_test thr self.
  - exists RecursionError. split; [reflexivity | now left].
  - cbn [predict].
    set (X2 := match X_test with A1 v => expand_dims0 v | A2 m => m end).
    destruct (IH (A2 X2) None self) as (e & He & Hcase).
    destruct thr as [t|].
    + exists e. split; [|exact Hcase].
      erewrite bind_ok by reflexivity.
      erewrite bind_err by exact He. reflexivity.
    + destruct (threshold_ self) as [t|] eqn:Ht.
      * exists e. split; [|exact Hcase].
        erewrite bind_ok by (apply getattr_some; exact Ht).
        erewrite bind_err by exact He. reflexivity.
      * exists (AttributeError "threshold_"). split; [|now right].
        erewrite bind_err by (apply getattr_none; exact Ht). reflexivity.
Qed.

End MoreFacade.

(* ================================================================= *)
(** ** Thresholding and the retained columns *)

(** X20.  Over the reals the labels of [threshold] are monotone in the
    scores: there is one label per score, and a sample whose score is at
    least that of another sample gets a label at least as large (an outlier
    label is never given to the lower of two scores only). *)
Theorem threshold_labels_monotone :
  forall (Env : NumpyEnv R) (scores labels : list R) (c : Q) (self self' : kPCA R),
    threshold scores c self = (Ok labels, self') ->
    length labels = length scores /\
    forall i j : nat,
      i < length scores -> j < length scores ->
      (vitem scores i <= vitem scores j)%R ->
      (vitem labels i <= vitem labels j)%R.
Proof.
  intros Env scores labels c self self'. rewrite threshold_eq.
  destruct (np_quantile scores (1 - c)%Q) as [t|e]; [|discriminate].
  intros [= <- _]. split; [apply length_map|].
  intros i j Hi Hj Hle.
  rewrite !vitem_map by assumption.
  cbn [fltb f0 f1 R_numeric]. unfold Rltb.
  destruct (Rlt_dec (vitem scores i) t), (Rlt_dec (vitem scores j) t); lra.
Qed.

Section EigenMore.

Context {F : Type} {NF : Numeric F} {Env : NumpyEnv F}.

(** X15.  The number of columns [eigenDecomp_gramMatrix] retains for an
    integer [q], when [eigh] returns [n] eigenpairs: [q] columns for
    [0 <= q <= n]; all [n] columns, without any error, for [q > n]; and
    [n - |q|] columns (none when [|q| >= n]) for a negative [q], which the
    slice counts from the end. *)
Theorem eigenDecomp_column_count :
  forall (self : kPCA F) (K_centered : array2 F) (z : Z) (w : list F) (v : array2 F),
    q self = QInt z ->
    eigh K_centered = Ok (w, v) ->
    length w = ncols v ->
    exists alphs : array2 F,
      eigenDecomp_gramMatrix self K_centered = Ok alphs /\
      nrows alphs = nrows v /\
      ((0 <= z <= Z.of_nat (ncols v))%Z -> ncols alphs = Z.to_nat z) /\
      ((Z.of_nat (ncols v) < z)%Z -> ncols alphs = ncols v) /\
      ((z < 0)%Z -> ncols alphs = ncols v - Z.to_nat (- z)).
Proof.
  intros self K_centered z w v Hq Heigh Hlen.
  destruct (eigenDecomp_int self K_centered Hq Heigh Hlen) as (alphs & Hok & HR & HC & _).
  exists alphs. split; [exact Hok|]. split; [exact HR|].
  rewrite HC. unfold slice_stop.
  repeat split; intros Hz.
  - destruct (Z.ltb_spec z 0); lia.
  - destruct (Z.ltb_spec z 0); lia.
  - destruct (Z.ltb_spec z 0); lia.
Qed.

End EigenMore.

(* ================================================================= *)
(** ** Exact arithmetic: kernel values, stored model, centring, rescaling *)

Section RealMore.

Local Open Scope R_scope.

Lemma fsum_R_nonneg (n : nat) (f : nat -> R) :
  (forall l, (l < n)%nat -> 0 <= f l) -> 0 <= fsum n f.
Proof.
  induction n as [|n IH]; intros H.
  - rewrite fsum_R_0. lra.
  - rewrite fsum_R_S.
    assert (0 <= fsum n f) by (apply IH; intros; apply H; lia).
    assert (0 <= f n) by (apply H; lia). lra.
Qed.

Lemma fsum_R_zero (n : nat) (f : nat -> R) :
  (forall l, (l < n)%nat -> f l = 0) -> fsum n f = 0.
Proof.
  induction n as [|n IH]; intros H.
  - apply fsum_R_0.
  - rewrite fsum_R_S, IH, H by (intros; try apply H; lia). lra.
Qed.

Lemma fsum_R_scal_r (n : nat) (f : nat -> R) (r : R) :
  fsum n (fun l => f l * r) = fsum n f * r.
Proof.
  induction n as [|n IH].
  - rewrite !fsum_R_0. lra.
  - rewrite !fsum_R_S, IH. lra.
Qed.

Lemma gramMatrix_self_symmetric (self : kPCA R) (X : array2 R) (i j : nat) :
  (i < nrows X)%nat -> (j < nrows X)%nat ->
  item (gramMatrix self X X) i j = item (gramMatrix self X X) j i.
Proof.
  intros Hi Hj. rewrite !gramMatrix_item, !gram_entry_rbf by assumption.
  f_equal. f_equal. apply fsum_ext. intros l _. lra.
Qed.

Lemma gramMatrix_self_diagonal (self : kPCA R) (X : array2 R) (i : nat) :
  (i < nrows X)%nat -> item (gramMatrix self X X) i i = 1.
Proof.
  intros Hi. rewrite gramMatrix_item, gram_entry_rbf by assumption.
  rewrite fsum_R_zero by (intros l _; lra).
  rewrite Rmult_0_r. apply exp_0.
Qed.

(** X13.  Over the reals, the gram matrix of a point set with itself is
    [n x n], symmetric, and has ones on its diagonal, whatever [gamma]. *)
Theorem gramMatrix_symmetric_unit_diagonal :
  forall (self : kPCA R) (X : array2 R),
    nrows (gramMatrix self X X) = nrows X /\
    ncols (gramMatrix self X X) = nrows X /\
    forall i j : nat,
      (i < nrows X)%nat -> (j < nrows X)%nat ->
      item (gramMatrix self X X) i j = item (gramMatrix self X X) j i /\
      item (gramMatrix self X X) i i = 1.
Proof.
  intros self X. destruct (gramMatrix_shape self X X) as [HR HC].
  split; [exact HR|]. split; [exact HC|].
  intros i j Hi Hj. split.
  - now apply gramMatrix_self_symmetric.
  - now apply gramMatrix_self_diagonal.
Qed.

(** X14.  Over the reals and for a non-negative [gamma] (every [gamma] the
    constructor computes), each entry of [gramMatrix(A, B)] lies in
    [(0, 1]]. *)
Theorem gramMatrix_entries_bounded :
  forall (self : kPCA R) (A B : array2 R) (i j : nat),
    (0 <= gamma self)%Q ->
    ncols A = ncols B ->
    (i < nrows B)%nat -> (j < nrows A)%nat ->
    0 < item (gramMatrix self A B) i j <= 1.
Proof.
  intros self A B i j Hg Hd Hi Hj.
  rewrite gramMatrix_item by assumption.
  rewrite <- Hd, gram_entry_rbf. split; [apply exp_pos|].
  rewrite <- exp_0.
  assert (HgR : 0 <= Q2R (gamma self)).
  { replace 0 with (Q2R 0) by (unfold Q2R; cbn; lra). now apply Qle_Rle. }
  assert (Hs : 0 <= fsum (ncols A)
                      (fun l => (item B i l - item A j l) * (item B i l - item A j l))).
  { apply fsum_R_nonneg. intros l _. exact (Rle_0_sqr (item B i l - item A j l)). }
  set (S := fsum (ncols A)
              (fun l => (item B i l - item A j l) * (item B i l - item A j l))) in *.
  assert (Hp : 0 <= Q2R (gamma self) * S) by (apply Rmult_le_pos; assumption).
  replace (- Q2R (gamma self) * S) with (- (Q2R (gamma self) * S)) by ring.
  destruct (Rle_lt_or_eq_dec _ _ Hp) as [Hlt|Heq].
  - left. apply exp_increasing. lra.
  - right. f_equal. lra.
Qed.

End RealMore.

Section RealModel.

Local Open Scope R_scope.

Lemma fit_K_mat_item (self : kPCA R) (X : array2 R) (i j : nat) :
  (i < nrows X)%nat -> (j < nrows X)%nat ->
  item (fit_K_mat self X) i j = item (gramMatrix self X X) i j.
Proof.
  intros Hi Hj. unfold fit_K_mat.
  destruct (gramMatrix_shape self X X) as [HR HC].
  cbn [item nrows ncols amap bcast np_T]. rewrite HR, HC.
  rewrite !(bidx_lt Hi), !(bidx_lt Hj).
  rewrite <- (gramMatrix_self_symmetric self X Hi Hj).
  cbn [fdiv fadd fof_Z R_numeric]. lra.
Qed.

Lemma fit_K_mat_shape (self : kPCA R) (X : array2 R) :
  nrows (fit_K_mat self X) = nrows X /\ ncols (fit_K_mat self X) = nrows X.
Proof.
  unfold fit_K_mat. destruct (gramMatrix_shape self X X) as [HR HC].
  cbn [nrows ncols amap bcast np_T]. rewrite HR, HC, bdim_same. split; reflexivity.
Qed.

(** X9.  Over the reals, when [fit(X)] returns, the stored [model_K_mat]
    is the gram matrix of [X] with itself (the symmetrisation changes no
    entry): it is [n x n], symmetric, and has ones on its diagonal. *)
Theorem fit_stores_gram_matrix :
  forall (Env : NumpyEnv R) (X : array2 R) (self self' : kPCA R),
    fit (A2 X) self = (Ok tt, self') ->
    exists K : array2 R,
      model_K_mat self' = Some K /\
      nrows K = nrows X /\ ncols K = nrows X /\
      forall i j : nat,
        (i < nrows X)%nat -> (j < nrows X)%nat ->
        item K i j = item (gramMatrix self X X) i j /\
        item K i j = item K j i /\
        item K i i = 1.
Proof.
  intros Env X self self' Hfit.
  exists (fit_K_mat self X). split; [exact (fit_inv_K_mat X self Hfit)|].
  destruct (fit_K_mat_shape self X) as [HR HC].
  split; [exact HR|]. split; [exact HC|].
  intros i j Hi Hj.
  rewrite !fit_K_mat_item by assumption.
  split; [reflexivity|]. split.
  - now apply gramMatrix_self_symmetric.
  - now apply gramMatrix_self_diagonal.
Qed.

Lemma fit_K_centered_symmetric (K : array2 R) (n : nat) :
  nrows K = n -> ncols K = n ->
  (forall i j : nat, (i < n)%nat -> (j < n)%nat -> item K i j = item K j i) ->
  forall i j : nat, (i < n)%nat -> (j < n)%nat ->
    item (fit_K_centered K n) i j = item (fit_K_centered K n) j i.
Proof.
  intros HR HC Hsym i j Hi Hj.
  rewrite !(fit_K_centered_R K HR HC Hsym) by assumption.
  rewrite (Hsym i j Hi Hj). lra.
Qed.

Lemma fit_K_centered_row_sum (K : array2 R) (n : nat) :
  nrows K = n -> ncols K = n ->
  (forall i j : nat, (i < n)%nat -> (j < n)%nat -> item K i j = item K j i) ->
  forall i : nat, (i < n)%nat ->
    fsum n (fun j => item (fit_K_centered K n) i j) = 0.
Proof.
  intros HR HC Hsym i Hi.
  rewrite (fsum_ext _ (fun j => item K i j - row_mean K n i - row_mean K n j
                                + grand_mean K n))
    by (intros j Hj; now apply fit_K_centered_R).
  rewrite (fsum_R_centred n (fun j => item K i j) (row_mean K n)).
  rewrite row_mean_total, grand_mean_total by lia. lra.
Qed.

(** X19.  Over the reals, the centring loop of [fit] keeps a symmetric
    matrix symmetric, and centring a second time changes nothing. *)
Theorem centering_symmetric_idempotent :
  forall (K : array2 R) (n : nat),
    nrows K = n -> ncols K = n ->
    (forall i j : nat, (i < n)%nat -> (j < n)%nat -> item K i j = item K j i) ->
    forall i j : nat, (i < n)%nat -> (j < n)%nat ->
      item (fit_K_centered K n) i j = item (fit_K_centered K n) j i /\
      item (fit_K_centered (fit_K_centered K n) n) i j = item (fit_K_centered K n) i j.
Proof.
  intros K n HR HC Hsym i j Hi Hj.
  pose proof (fit_K_centered_symmetric K HR HC Hsym) as Hcs.
  split; [now apply Hcs|].
  destruct (fit_K_centered_item K n) as (HR' & HC' & _).
  rewrite HR in HR'. rewrite HC in HC'.
  rewrite (fit_K_centered_R (fit_K_centered K n) HR' HC' Hcs) by assumption.
  assert (Hrm : forall k, (k < n)%nat -> row_mean (fit_K_centered K n) n k = 0).
  { intros k Hk. unfold row_mean.
    rewrite (fit_K_centered_row_sum K HR HC Hsym Hk). unfold Rdiv. apply Rmult_0_l. }
  assert (Hgm : grand_mean (fit_K_centered K n) n = 0).
  { unfold grand_mean. rewrite fsum_R_zero by exact Hrm.
    unfold Rdiv. apply Rmult_0_l. }
  rewrite (Hrm i Hi), (Hrm j Hj), Hgm. lra.
Qed.

(** X16.  Why the columns are rescaled: over the reals, if column
    [n - 1 - k] of [eigh]'s matrix is a unit eigenvector of the centred
    gram matrix for a positive eigenvalue, then the retained column [k] of
    [alphas] has kernel norm one, [alpha_k^T K_centered alpha_k = 1]. *)
Theorem alphas_have_unit_kernel_norm :
  forall (Env : NumpyEnv R) (self : kPCA R) (K_centered : array2 R) (z : Z)
         (w : list R) (v : array2 R) (n k : nat),
    q self = QInt z ->
    eigh K_centered = Ok (w, v) ->
    length w = n -> nrows v = n -> ncols v = n ->
    (k < slice_stop n z)%nat ->
    0 < vitem w (n - 1 - k) ->
    (forall i : nat, (i < n)%nat ->
        fsum n (fun j => item K_centered i j * item v j (n - 1 - k))
        = vitem w (n - 1 - k) * item v i (n - 1 - k)) ->
    fsum n (fun i => item v i (n - 1 - k) * item v i (n - 1 - k)) = 1 ->
    exists alphs : array2 R,
      eigenDecomp_gramMatrix self K_centered = Ok alphs /\
      quad_form K_centered n (fun i => item alphs i k) = 1.
Proof.
  intros Env self K_centered z w v n k Hq Heigh Hw HvR HvC Hk Hpos Heq Hnorm.
  destruct (eigenDecomp_int self K_centered Hq Heigh) as (alphs & Hok & _ & _ & Hitem).
  { now rewrite Hw, HvC. }
  exists alphs. split; [exact Hok|].
  rewrite HvR, HvC, Hw in Hitem.
  set (lam := vitem w (n - 1 - k)) in *.
  set (r := 1 / sqrt lam).
  assert (Ha : forall i, (i < n)%nat -> item alphs i k = item v i (n - 1 - k) * r).
  { intros i Hi. rewrite (Hitem i k Hi Hk). reflexivity. }
  assert (Hr : r * r * lam = 1).
  { unfold r. assert (Hs : 0 < sqrt lam) by now apply sqrt_lt_R0.
    rewrite <- (sqrt_sqrt lam) at 3 by lra. field. lra. }
  unfold quad_form.
  rewrite (fsum_ext _ (fun i => item v i (n - 1 - k) * item v i (n - 1 - k)
                                * (r * r * lam))).
  - rewrite fsum_R_scal_r, Hnorm, Hr. lra.
  - intros i Hi. rewrite (Ha i Hi).
    rewrite (fsum_ext _ (fun j => item K_centered i j * item v j (n - 1 - k) * r))
      by (intros j Hj; rewrite (Ha j Hj); lra).
    rewrite fsum_R_scal_r, (Heq i Hi). lra.
Qed.

End RealModel.

(* ================================================================= *)
(** ** Thresholding and what [fit] stores *)

Section ThresholdAndFit.

Context {F : Type} {NF : Numeric F} {EF : Exponential F} {Env : NumpyEnv F}.

(** C9 (amended).  For every score vector and every contamination, in every
    number type, [threshold] takes [np.quantile(scores, 1 - contamination)]
    as threshold, stores it as [threshold_] and returns one label per score:
    [0] where [scores[i] < threshold] and [1] everywhere else.  When
    [fit(X)] returns, the model stored is the one trained on [X],
    [decision_scores_] are the reconstruction errors of the rows of [X]
    against it, one per row, [threshold_] is that quantile of
    [decision_scores_] and [labels_] are the labels of [decision_scores_].
    For real scores and threshold the label is [1] exactly when
    [scores[i] >= threshold]. *)
Theorem C9_threshold_and_fit :
  (forall (scores : list F) (c : Q) (self : kPCA F),
      threshold scores c self
      = match np_quantile scores (1 - c)%Q with
        | Ok t => (Ok (map (fun s => if fltb s t then f0 else f1) scores),
                   set_threshold_ t self)
        | Err e => (Err e, self)
        end) /\
  (forall (X : array2 F) (self self' : kPCA F),
      fit (A2 X) self = (Ok tt, self') ->
      exists (alphs : array2 F) (scores : list F) (t : F),
        model_X_S self' = Some X /\
        model_K_mat self' = Some (fit_K_mat self X) /\
        eigenDecomp_gramMatrix self (fit_K_centered (fit_K_mat self X) (nrows X))
        = Ok alphs /\
        model_alphas self' = Some alphs /\
        calc_reconstructionErrors self X X (fit_K_mat self X) alphs = Ok scores /\
        decision_scores_ self' = Some scores /\
        length scores = nrows X /\
        np_quantile scores (1 - contamination self)%Q = Ok t /\
        threshold_ self' = Some t /\
        labels_ self' = Some (map (fun s => if fltb s t then f0 else f1) scores)) /\
  (forall t s : R, (if fltb s t then f0 else f1) = label_of t s).
Proof.
  split; [exact threshold_eq|]. split; [|exact Rltb_label_of].
  intros X self self' Hfit.
  destruct (fit_inv X self Hfit)
    as (self2 & alphs & errs & t & Hadj & _ & Heig & Hcalc & Hq & ->).
  destruct (fit_adjusted_d_features Hadj) as [_ (_ & Hg & _ & Hqq & Hb & Hc & _)].
  assert (HK : fit_K_mat self2 X = fit_K_mat self X) by now apply fit_K_mat_gamma.
  destruct (fit_result_fields X self2 alphs errs t)
    as (HXS & HKm & Hal & Hds & Hth & Hlab & _ & _).
  rewrite HK in Heig, Hcalc, HKm.
  rewrite (eigenDecomp_q self2 self _ Hqq) in Heig.
  rewrite (calc_same_parameters self2 self X X (fit_K_mat self X) alphs Hg Hb) in Hcalc.
  rewrite Hc in Hq.
  exists alphs, errs, t.
  repeat (split; [assumption|]).
  split; [exact (calc_length _ _ _ _ _ Hcalc)|].
  repeat (split; [assumption|]). assumption.
Qed.

End ThresholdAndFit.

Lemma C9_threshold_and_fit_witness :
  let st := fit (Env := Env_pair) (A2 (of_rows [[0%R]; [1%R]])) (new_kPCA (QInt 1)) in
  fst st = Ok tt /\
  exists (scores : list R) (t : R),
    decision_scores_ (snd st) = Some scores /\
    length scores = 2 /\
    threshold_ (snd st) = Some t /\
    labels_ (snd st) = Some (map (fun s => if fltb s t then f0 else f1) scores).
Proof.
  intros st.
  assert (Hfst : fst st = Ok tt) by (vm_compute; reflexivity).
  split; [exact Hfst|].
  destruct (@C9_threshold_and_fit R _ _ Env_pair) as (_ & H & _).
  destruct (H (of_rows [[0%R]; [1%R]]) (new_kPCA (QInt 1)) (snd st))
    as (alphs & scores & t & _ & _ & _ & _ & _ & Hs & Hlen & _ & Ht & Hl).
  - rewrite <- Hfst. apply surjective_pairing.
  - exists scores, t.
    split; [exact Hs | split; [exact Hlen | split; [exact Ht | exact Hl]]].
Defined.

(** C9 as stated fails.  In binary64 take the one score [nan] (the score
    [fit] computes for the one-point sample [[0.]] with [q = 1]); its
    quantile is [nan].  The score is not at least the threshold, yet the
    label is [1.0]: no score is below the threshold, so no label is reset. *)
Lemma C9_counterexample :
  exists labels : list PrimFloat.float,
    threshold (Env := Env_small) [PrimFloat.nan] (1 # 10)%Q (new_kPCA (QInt 1))
    = (Ok labels, set_threshold_ PrimFloat.nan (new_kPCA (QInt 1))) /\
    vitem labels 0 = PrimFloat.one /\
    PrimFloat.leb PrimFloat.nan (vitem [PrimFloat.nan] 0) = false.
Proof.
  eexists. split; [vm_compute; reflexivity|]. split; vm_compute; reflexivity.
Qed.

(* ================================================================= *)
(** ** The further properties at concrete inputs *)

(** [fit] returns on the one-point sample [[0.]] with [q = 1]. *)
Lemma fit_small_returns :
  fit (Env := Env_small) (A2 (of_rows [[0%R]])) (new_kPCA (QInt 1))
  = (Ok tt, snd (fit (Env := Env_small) (A2 (of_rows [[0%R]])) (new_kPCA (QInt 1)))).
Proof.
  assert (H : fst (fit (Env := Env_small) (A2 (of_rows [[0%R]])) (new_kPCA (QInt 1)))
              = Ok tt) by (vm_compute; reflexivity).
  rewrite <- H. apply surjective_pairing.
Qed.

Lemma fit_uses_whole_sample_witness :
  let self' := snd (fit (Env := Env_small) (A2 (of_rows [[0%R]])) (new_kPCA (QInt 1))) in
  fit (Env := Env_small) (A2 (of_rows [[0%R]])) (new_kPCA (QInt 1)) = (Ok tt, self') /\
  model_X_S self' = Some (of_rows [[0%R]]).
Proof.
  intros self'. split; [exact fit_small_returns|].
  destruct (@fit_uses_whole_sample R _ _ Env_small (of_rows [[0%R]])
              (new_kPCA (QInt 1)) self' fit_small_returns) as (H & _).
  exact H.
Defined.

Lemma fit_no_rows_raises_witness :
  nrows (mkArray2 0 2 (fun _ _ => 0%R)) = 0 /\
  fst (fit (Env := Env_small) (A2 (mkArray2 0 2 (fun _ _ => 0%R))) (new_kPCA (QInt 1)))
  = Err ZeroDivisionError.
Proof.
  split; [reflexivity|].
  apply (@fit_no_rows_raises R _ _ Env_small (mkArray2 0 2 (fun _ _ => 0%R))
           (new_kPCA (QInt 1))); [reflexivity | cbn; lia].
Defined.

Lemma fit_then_decision_function_witness :
  let self' := snd (fit (Env := Env_small) (A2 (of_rows [[0%R]])) (new_kPCA (QInt 1))) in
  exists scores : list R,
    decision_function (A2 (of_rows [[0%R]])) self' = (Ok scores, self') /\
    decision_scores_ self' = Some scores.
Proof.
  intros self'.
  destruct (@fit_then_decision_function R _ _ Env_small (of_rows [[0%R]])
              (new_kPCA (QInt 1)) self' fit_small_returns)
    as (scores & t & H1 & H2 & _).
  exists scores. split; assumption.
Defined.

Lemma fit_idempotent_witness :
  let self' := snd (fit (Env := Env_small) (A2 (of_rows [[0%R]])) (new_kPCA (QInt 1))) in
  fit (Env := Env_small) (A2 (of_rows [[0%R]])) self' = (Ok tt, self').
Proof.
  intros self'.
  exact (@fit_idempotent R _ _ Env_small (A2 (of_rows [[0%R]])) (new_kPCA (QInt 1))
           self' fit_small_returns).
Defined.

Lemma fit_stores_gram_matrix_witness :
  let self' := snd (fit (Env := Env_small) (A2 (of_rows [[0%R]])) (new_kPCA (QInt 1))) in
  exists K : array2 R, model_K_mat self' = Some K /\ item K 0 0 = 1%R.
Proof.
  intros self'.
  destruct (@fit_stores_gram_matrix Env_small (of_rows [[0%R]]) (new_kPCA (QInt 1))
              self' fit_small_returns) as (K & HK & _ & _ & Hitem).
  exists K. split; [exact HK|].
  destruct (Hitem 0 0) as (_ & _ & Hd); [cbn; lia | cbn; lia | exact Hd].
Defined.

Lemma calc_batch_size_not_positive_witness :
  (batch_size (with_batch_size (-1) (@new_kPCA R (QInt 1))) <= 0)%Z /\
  calc_reconstructionErrors (with_batch_size (-1) (new_kPCA (QInt 1)))
    (of_rows [[0%R]; [1%R]]) (of_rows [[0%R]]) (of_rows [[1%R]]) (of_rows [[1%R]])
  = Ok [0%R; 0%R].
Proof.
  split; [cbn; lia|].
  rewrite (@calc_batch_size_not_positive R _ _ (with_batch_size (-1) (new_kPCA (QInt 1))))
    by (cbn; lia).
  reflexivity.
Defined.

Lemma decision_function_one_score_per_row_witness :
  let self' := snd (fit (Env := Env_small) (A2 (of_rows [[0%R]])) (new_kPCA (QInt 1))) in
  let r := decision_function (A1 [0%R]) self' in
  exists scores : list R, r = (Ok scores, snd r) /\ length scores = 1.
Proof.
  intros self' r.
  assert (H : exists scores, fst r = Ok scores) by (eexists; vm_compute; reflexivity).
  destruct H as [scores H]. exists scores.
  assert (Hr : r = (Ok scores, snd r)) by (rewrite <- H; apply surjective_pairing).
  split; [exact Hr|].
  exact (@decision_function_one_score_per_row R _ _ (A1 [0%R]) self' (snd r) scores Hr).
Defined.

Lemma score_depends_on_its_row_only_witness :
  exists errs errs' : list R,
    calc_reconstructionErrors (new_kPCA (QInt 1))
      (of_rows [[0%R]; [1%R]]) (of_rows [[0%R]]) (of_rows [[1%R]]) (of_rows [[1%R]])
    = Ok errs /\
    calc_reconstructionErrors (new_kPCA (QInt 1))
      (of_rows [[1%R]; [0%R]]) (of_rows [[0%R]]) (of_rows [[1%R]]) (of_rows [[1%R]])
    = Ok errs' /\
    vitem errs 1 = vitem errs' 0.
Proof.
  eexists. eexists. split; [vm_compute; reflexivity|]. split; [vm_compute; reflexivity|].
  eapply (@score_depends_on_its_row_only R _ _ (new_kPCA (QInt 1))
            (of_rows [[0%R]; [1%R]]) (of_rows [[1%R]; [0%R]])
            (of_rows [[0%R]]) (of_rows [[1%R]]) (of_rows [[1%R]]) _ _ 1 0).
  - reflexivity.
  - reflexivity.
  - reflexivity.
  - cbn; lia.
  - cbn; lia.
  - intros l Hl. destruct l as [|l]; [reflexivity | cbn in Hl; lia].
  - vm_compute; reflexivity.
  - vm_compute; reflexivity.
Defined.

Lemma gramMatrix_symmetric_unit_diagonal_witness :
  item (gramMatrix (new_kPCA (QInt 1)) (of_rows [[0%R]; [1%R]]) (of_rows [[0%R]; [1%R]])) 0 1
  = item (gramMatrix (new_kPCA (QInt 1)) (of_rows [[0%R]; [1%R]]) (of_rows [[0%R]; [1%R]])) 1 0.
Proof.
  destruct (@gramMatrix_symmetric_unit_diagonal (new_kPCA (QInt 1))
              (of_rows [[0%R]; [1%R]])) as (_ & _ & H).
  destruct (H 0 1) as [Hs _]; [cbn; lia | cbn; lia | exact Hs].
Defined.

Lemma gramMatrix_entries_bounded_witness :
  (0 <= gamma (@new_kPCA R (QInt 1)))%Q /\
  (0 < item (gramMatrix (new_kPCA (QInt 1)) (of_rows [[0%R]]) (of_rows [[0%R]; [1%R]])) 1 0
   <= 1)%R.
Proof.
  split; [vm_compute; discriminate|].
  apply (@gramMatrix_entries_bounded (new_kPCA (QInt 1)) (of_rows [[0%R]])
           (of_rows [[0%R]; [1%R]]) 1 0).
  - vm_compute. discriminate.
  - reflexivity.
  - cbn; lia.
  - cbn; lia.
Defined.

Lemma eigenDecomp_column_count_witness :
  q (@new_kPCA R (QInt 5)) = QInt 5 /\
  eigh (NumpyEnv := Env_small) (of_rows [[4%R]]) = Ok ([4%R], of_rows [[1%R]]) /\
  exists alphs : array2 R,
    eigenDecomp_gramMatrix (Env := Env_small) (new_kPCA (QInt 5)) (of_rows [[4%R]])
    = Ok alphs /\
    ncols alphs = 1.
Proof.
  split; [reflexivity|]. split; [reflexivity|].
  destruct (@eigenDecomp_column_count R _ Env_small (new_kPCA (QInt 5))
              (of_rows [[4%R]]) 5%Z [4%R] (of_rows [[1%R]]))
    as (alphs & Hok & _ & _ & Hbig & _); [reflexivity | reflexivity | reflexivity |].
  exists alphs. split; [exact Hok|]. apply Hbig. cbn. lia.
Defined.

Lemma alphas_have_unit_kernel_norm_witness :
  (0 < vitem [4%R] (1 - 1 - 0))%R /\
  exists alphs : array2 R,
    eigenDecomp_gramMatrix (Env := Env_small) (new_kPCA (QInt 1)) (of_rows [[4%R]])
    = Ok alphs /\
    quad_form (of_rows [[4%R]]) 1 (fun i => item alphs i 0) = 1%R.
Proof.
  split; [cbn; lra|].
  apply (@alphas_have_unit_kernel_norm Env_small (new_kPCA (QInt 1)) (of_rows [[4%R]])
           1%Z [4%R] (of_rows [[1%R]]) 1 0).
  - reflexivity.
  - reflexivity.
  - reflexivity.
  - reflexivity.
  - reflexivity.
  - cbn; lia.
  - cbn; lra.
  - intros i Hi. destruct i as [|i]; [cbn; lra | lia].
  - cbn. lra.
Defined.

Lemma centering_symmetric_idempotent_witness :
  nrows (of_rows [[1%R; 2%R]; [2%R; 1%R]]) = 2 /\
  item (fit_K_centered (fit_K_centered (of_rows [[1%R; 2%R]; [2%R; 1%R]]) 2) 2) 0 1
  = item (fit_K_centered (of_rows [[1%R; 2%R]; [2%R; 1%R]]) 2) 0 1.
Proof.
  split; [reflexivity|].
  destruct (@centering_symmetric_idempotent (of_rows [[1%R; 2%R]; [2%R; 1%R]]) 2)
    with (i := 0) (j := 1) as [_ H].
  - reflexivity.
  - reflexivity.
  - intros i j Hi Hj.
    destruct i as [|[|i]]; destruct j as [|[|j]]; try lia; reflexivity.
  - lia.
  - lia.
  - exact H.
Defined.

Lemma threshold_labels_monotone_witness :
  let r := threshold (Env := Env_pair) [1%R; 2%R] (1 # 10)%Q (new_kPCA (QInt 1)) in
  exists labels : list R,
    r = (Ok labels, snd r) /\
    length labels = 2 /\
    (vitem [1%R; 2%R] 0 <= vitem [1%R; 2%R] 1)%R /\
    (vitem labels 0 <= vitem labels 1)%R.
Proof.
  intros r.
  assert (H : exists labels, fst r = Ok labels) by (eexists; vm_compute; reflexivity).
  destruct H as [labels H]. exists labels.
  assert (Hr : r = (Ok labels, snd r)) by (rewrite <- H; apply surjective_pairing).
  assert (Hle : (vitem [1%R; 2%R] 0 <= vitem [1%R; 2%R] 1)%R) by (cbn; lra).
  destruct (@threshold_labels_monotone Env_pair [1%R; 2%R] labels (1 # 10)%Q
              (new_kPCA (QInt 1)) (snd r) Hr) as [Hlen Hmono].
  split; [exact Hr|]. split; [exact Hlen|]. split; [exact Hle|].
  apply (Hmono 0 1); [cbn; lia | cbn; lia | exact Hle].
Defined.
